(** * Anexis build service: a shallow embedding of the build orchestrator

    This development models the Go package [build] (build spec loading,
    archive extraction, resource download paths, git fetching, image tag
    resolution, run manifest image references, secrets) and the [socket]
    package (build request handling, notifier, per-connection send queue)
    of the Anexis repository, and states the properties of its design
    document against that model. *)

From Stdlib Require Import Ascii.
From stdpp Require Import base gmap strings list.

Open Scope string_scope.

(** ** Results of fallible Go functions *)

Inductive result (A E : Type) : Type :=
| Ok (a : A)
| Err (e : E).
Arguments Ok {A E} a.
Arguments Err {A E} e.

Definition bind_result {A B E} (r : result A E) (k : A -> result B E) : result B E :=
  match r with Ok a => k a | Err e => Err e end.

Definition is_err {A E} (r : result A E) : bool :=
  match r with Ok _ => false | Err _ => true end.

(** ** Go's [path/filepath] on a Unix host (separator ['/']) *)

Module FilePath.

(** [strings.Split(s, "/")] *)
Fixpoint split_slash (s : string) : list string :=
  match s with
  | EmptyString => [EmptyString]
  | String c rest =>
      let parts := split_slash rest in
      if Ascii.eqb c "/" then EmptyString :: parts
      else match parts with
           | p :: ps => String c p :: ps
           | [] => [String c EmptyString]
           end
  end.

Definition is_rooted (p : string) : bool :=
  match p with String c _ => Ascii.eqb c "/" | EmptyString => false end.

(** One element of the lexical processing loop of [filepath.Clean]; the
    output is kept reversed.  Empty and ["."] elements are dropped, [".."]
    removes the last real element, is dropped at the root of a rooted path
    and is kept when a relative path cannot back up further. *)
Definition clean_step (rooted : bool) (acc : list string) (c : string)
  : list string :=
  if String.eqb c "" || String.eqb c "." then acc
  else if String.eqb c ".." then
    match acc with
    | x :: rest => if String.eqb x ".." then ".." :: acc else rest
    | [] => if rooted then [] else [".."]
    end
  else c :: acc.

Definition clean_elems (p : string) : list string :=
  rev (fold_left (clean_step (is_rooted p)) (split_slash p) []).

(** [filepath.Clean] *)
Definition Clean (p : string) : string :=
  let body := String.concat "/" (clean_elems p) in
  if is_rooted p then "/" +:+ body
  else if String.eqb body "" then "." else body.

(** [filepath.Join(a, b)]: the non-empty elements joined by ["/"], then
    cleaned; [""] when both are empty. *)
Definition Join (a b : string) : string :=
  if negb (String.eqb a "") then Clean (a +:+ "/" +:+ b)
  else if negb (String.eqb b "") then Clean b
  else "".

(** [strings.HasPrefix(s, prefix)] *)
Definition HasPrefix (s pre : string) : bool := String.prefix pre s.

(** Everything up to and including the last separator. *)
Definition upto_last_slash (p : string) : string :=
  String.string_of_list_ascii
    (rev
      (let fix drop (l : list ascii) :=
         match l with
         | [] => []
         | c :: r => if Ascii.eqb c "/" then c :: r else drop r
         end in drop (rev (String.list_ascii_of_string p)))).

(** [filepath.Dir] *)
Definition Dir (p : string) : string := Clean (upto_last_slash p).

(** [filepath.Base] *)
Definition Base (p : string) : string :=
  if String.eqb p "" then "."
  else
    let fix strip (l : list ascii) :=
      match l with
      | c :: r => if Ascii.eqb c "/" then strip r else l
      | [] => []
      end in
    let rl := strip (rev (String.list_ascii_of_string p)) in
    match rl with
    | [] => "/"
    | _ =>
        let fix last_elem (l : list ascii) :=
          match l with
          | c :: r => if Ascii.eqb c "/" then [] else c :: last_elem r
          | [] => []
          end in
        String.string_of_list_ascii (rev (last_elem rl))
    end.

End FilePath.

Import FilePath.

(** ** The host filesystem

    Absolute paths are keyed by their cleaned string form.  A node is a
    directory, a regular file with its contents, or a symbolic link with
    its (unresolved) target.  Path resolution follows symbolic links the
    way the kernel does: in every intermediate component, and in the last
    component unless the operation acts on the link itself (symlink(2),
    mkdir(2)); at most [max_links] nested links are followed. *)

Module FS.

Inductive node : Type :=
| NDir
| NFile (data : string)
| NSymlink (target : string).

Abbreviation fsys := (gmap string node).

Definition path_of (cs : list string) : string := "/" +:+ String.concat "/" cs.

(** Components of an absolute path ([clean_elems] of a rooted path has no
    empty, ["."] or [".."] element). *)
Definition elems_of (p : string) : list string := clean_elems p.

(** Target of a link found in directory [dir], as an absolute path. *)
Definition link_path (dir : list string) (t : string) : string :=
  if is_rooted t then t else path_of dir +:+ "/" +:+ t.

Definition max_links : nat := 40.

Fixpoint resolve (fuel : nat) (m : fsys) (cur rest : list string)
    (follow_last : bool) {struct fuel} : option (list string) :=
  match fuel with
  | 0 => None
  | S f =>
      let fix walk (cur rest : list string) : option (list string) :=
        match rest with
        | [] => Some cur
        | c :: rest' =>
            let p := (cur ++ [c])%list in
            let last := match rest' with [] => true | _ => false end in
            match m !! path_of p with
            | Some (NSymlink t) =>
                if negb last || follow_last then
                  match resolve f m [] (elems_of (link_path cur t)) true with
                  | Some cur' => walk cur' rest'
                  | None => None
                  end
                else Some p
            | Some NDir => walk p rest'
            | Some (NFile _) | None => if last then Some p else None
            end
        end in
      walk cur rest
  end.

Definition resolve_path (m : fsys) (p : string) (follow_last : bool)
  : option (list string) :=
  resolve max_links m [] (elems_of p) follow_last.

Inductive os_error : Type := ENOENT | EEXIST | ENOTDIR | EISDIR.

(** [os.Stat]: the node reached by following every link. *)
Definition stat (m : fsys) (p : string) : option node :=
  match resolve_path m p true with
  | Some [] => Some NDir
  | Some q => m !! path_of q
  | None => None
  end.

(** [os.Symlink(oldname, newname)] *)
Definition os_symlink (m : fsys) (oldname newname : string) : result fsys os_error :=
  match resolve_path m newname false with
  | Some [] => Err EEXIST
  | Some q =>
      match m !! path_of q with
      | Some _ => Err EEXIST
      | None => Ok (<[path_of q := NSymlink oldname]> m)
      end
  | None => Err ENOENT
  end.

(** [os.Mkdir] *)
Definition os_mkdir (m : fsys) (cs : list string) : result fsys os_error :=
  match resolve max_links m [] cs false with
  | Some [] => Err EEXIST
  | Some q =>
      match m !! path_of q with
      | Some _ => Err EEXIST
      | None => Ok (<[path_of q := NDir]> m)
      end
  | None => Err ENOENT
  end.

(** [os.MkdirAll] on the components of a cleaned absolute path, given in
    reverse order (so that the parent is the tail). *)
Fixpoint mkdir_all_rev (m : fsys) (rcs : list string) : result fsys os_error :=
  let cs := rev rcs in
  match stat m (path_of cs) with
  | Some NDir => Ok m
  | Some _ => Err ENOTDIR
  | None =>
      match rcs with
      | [] => Ok m
      | _ :: parent =>
          match mkdir_all_rev m parent with
          | Ok m' =>
              match os_mkdir m' cs with
              | Ok m'' => Ok m''
              | Err e =>
                  match m' !! path_of cs with
                  | Some NDir => Ok m'
                  | _ => Err e
                  end
              end
          | Err e => Err e
          end
      end
  end.

Definition MkdirAll (m : fsys) (p : string) : result fsys os_error :=
  mkdir_all_rev m (rev (elems_of p)).

(** [os.OpenFile(p, O_CREATE|O_TRUNC|O_WRONLY, mode)] followed by writing
    [data]: the last component is followed when it is a link, so a
    dangling link makes the kernel create its target. *)
Definition write_file (m : fsys) (p data : string) : result fsys os_error :=
  match resolve_path m p true with
  | Some [] => Err EISDIR
  | Some q =>
      match m !! path_of q with
      | Some NDir => Err EISDIR
      | _ => Ok (<[path_of q := NFile data]> m)
      end
  | None => Err ENOENT
  end.

End FS.

Import FS.

(** ** Archive extraction ([extractTar], [extractZip]) *)

Module Archive.

Inductive TypeFlag : Type :=
| TypeReg | TypeDir | TypeSymlink | TypeLink | TypeOther (c : ascii).

(** A tar entry as [tar.Reader.Next] yields it, with its body. *)
Record Header : Type := mkHeader {
  hName : string;
  hTypeflag : TypeFlag;
  hLinkname : string;
  hBody : string
}.

Inductive extract_error : Type :=
| ErrEscape (name : string)
| ErrMkdir (path : string) (e : os_error)
| ErrCreate (path : string) (e : os_error)
| ErrSymlink (path : string) (e : os_error).

(** The sanitisation check shared by [extractTar] and [extractZip]. *)
Definition inside_dest (destDir target : string) : bool :=
  HasPrefix target (Clean destDir +:+ "/").

Definition extract_tar_entry (destDir : string) (m : fsys) (h : Header)
  : result fsys extract_error :=
  let target := Join destDir (hName h) in
  if negb (inside_dest destDir target) then Err (ErrEscape (hName h))
  else
    match hTypeflag h with
    | TypeDir =>
        match MkdirAll m target with
        | Ok m' => Ok m'
        | Err e => Err (ErrMkdir target e)
        end
    | TypeReg =>
        let parentDir := Dir target in
        match MkdirAll m parentDir with
        | Err e => Err (ErrMkdir parentDir e)
        | Ok m' =>
            match write_file m' target (hBody h) with
            | Ok m'' => Ok m''
            | Err e => Err (ErrCreate target e)
            end
        end
    | TypeSymlink =>
        match os_symlink m (hLinkname h) target with
        | Ok m' => Ok m'
        | Err e => Err (ErrSymlink target e)
        end
    | TypeLink => Ok m          (* hard links: warning, skipped *)
    | TypeOther _ => Ok m       (* devices, fifos: warning, skipped *)
    end.

(** [extractTar]: entries are processed in archive order; the first error
    stops the extraction. *)
Fixpoint extractTar (entries : list Header) (destDir : string) (m : fsys)
  : result fsys extract_error :=
  match entries with
  | [] => Ok m
  | h :: rest =>
      match extract_tar_entry destDir m h with
      | Ok m' => extractTar rest destDir m'
      | Err e => Err e
      end
  end.

(** A zip member: name, whether [FileInfo().IsDir()] holds, contents. *)
Record ZipFile : Type := mkZipFile { zName : string; zIsDir : bool; zBody : string }.

Fixpoint extractZip (files : list ZipFile) (destDir : string) (m : fsys)
  : result fsys extract_error :=
  match files with
  | [] => Ok m
  | f :: rest =>
      let targetPath := Join destDir (zName f) in
      if negb (inside_dest destDir targetPath) then Err (ErrEscape (zName f))
      else if zIsDir f then
        match MkdirAll m targetPath with
        | Ok m' => extractZip rest destDir m'
        | Err e => Err (ErrMkdir targetPath e)
        end
      else
        let parentDir := Dir targetPath in
        match MkdirAll m parentDir with
        | Err e => Err (ErrMkdir parentDir e)
        | Ok m' =>
            match write_file m' targetPath (zBody f) with
            | Ok m'' => extractZip rest destDir m''
            | Err e => Err (ErrCreate targetPath e)
            end
        end
  end.

End Archive.

Import Archive.

(** ** The build specification ([BuildSpec] and its parts) *)

Module Spec.

Record CodebaseConfig : Type := mkCodebase {
  cbName : string; cbSourceType : string; cbSource : string; cbBranch : string;
  cbCommit : string; cbPath : string; cbContent : string; cbBuildOnly : bool;
  cbTargetInHost : string
}.

Record ResourceConfig : Type := mkResource {
  resURL : string; resTargetPath : string; resExtract : bool
}.

Record BuildStep : Type := mkBuildStep {
  stName : string; stCodebaseName : string; stOutputsBinaryPath : string;
  stUseBinaryFromStep : string; stBinaryTargetPath : string
}.

Record BuildConfig : Type := mkBuildConfig {
  BaseImage : string; Dockerfile : string; ComposeFile : string; Target : string;
  Args : gmap string string; Tags : list string; Platforms : list string;
  NoCache : bool; OutputTarget : string; LocalPath : string; Pull : bool;
  BuildKit : bool
}.

Record SecretSpec : Type := mkSecretSpec {
  secName : string; secSource : string; secInjectMethod : string
}.

Record RunConfigDef : Type := mkRunConfigDef {
  Generate : bool; ArtifactStorage : string; Commands : list string
}.

Record BuildSpec : Type := mkBuildSpec {
  Name : string; Version : string; Codebases : list CodebaseConfig;
  Resources : list ResourceConfig; BuildSteps : list BuildStep;
  BuildCfg : BuildConfig; Env : gmap string string; EnvFiles : list string;
  Secrets : list SecretSpec; RunCfg : RunConfigDef
}.

(** Go zero values. *)
Definition zero_build_config : BuildConfig :=
  mkBuildConfig "" "" "" "" ∅ [] [] false "" "" false false.
Definition zero_run_config : RunConfigDef := mkRunConfigDef false "" [].
Definition zero_spec : BuildSpec :=
  mkBuildSpec "" "" [] [] [] zero_build_config ∅ [] [] zero_run_config.

(** A serialized spec, as far as the decoders see it: for every key of the
    struct tags, the value present in the document ([None] when the key is
    absent or null).  [yaml_ok] and [json_ok] say whether [yaml.Unmarshal]
    and [json.Unmarshal] accept the bytes. *)
Record BuildConfigDoc : Type := mkBuildConfigDoc {
  d_base_image : option string; d_dockerfile : option string;
  d_compose_file : option string; d_target : option string;
  d_args : option (gmap string string); d_tags : option (list string);
  d_platforms : option (list string); d_no_cache : option bool;
  d_output_target : option string; d_local_path : option string;
  d_pull : option bool; d_buildkit : option bool
}.

Record RunConfigDoc : Type := mkRunConfigDoc {
  d_generate : option bool; d_artifact_storage : option string;
  d_commands : option (list string)
}.

Record SpecDoc : Type := mkSpecDoc {
  d_name : option string; d_version : option string;
  d_codebases : option (list CodebaseConfig);
  d_resources : option (list ResourceConfig);
  d_build_steps : option (list BuildStep);
  d_build_config : option BuildConfigDoc;
  d_env : option (gmap string string); d_env_files : option (list string);
  d_secrets : option (list SecretSpec);
  d_run_config_def : option RunConfigDoc
}.

Record Document : Type := mkDocument {
  yaml_ok : bool; json_ok : bool; doc : SpecDoc
}.

Definition overlay {A} (v : option A) (old : A) : A :=
  match v with Some x => x | None => old end.

(** Decoding into an already initialised struct, as [encoding/json] and
    [yaml.v3] do for struct targets: a key present in the document sets its
    field, an absent key leaves the field as it was; nested structs are
    decoded field by field, slices and maps are replaced. *)
Definition decode_build_config (d : option BuildConfigDoc) (c : BuildConfig)
  : BuildConfig :=
  match d with
  | None => c
  | Some d =>
      mkBuildConfig (overlay (d_base_image d) (BaseImage c))
        (overlay (d_dockerfile d) (Dockerfile c))
        (overlay (d_compose_file d) (ComposeFile c))
        (overlay (d_target d) (Target c)) (overlay (d_args d) (Args c))
        (overlay (d_tags d) (Tags c)) (overlay (d_platforms d) (Platforms c))
        (overlay (d_no_cache d) (NoCache c))
        (overlay (d_output_target d) (OutputTarget c))
        (overlay (d_local_path d) (LocalPath c)) (overlay (d_pull d) (Pull c))
        (overlay (d_buildkit d) (BuildKit c))
  end.

Definition decode_run_config (d : option RunConfigDoc) (r : RunConfigDef)
  : RunConfigDef :=
  match d with
  | None => r
  | Some d =>
      mkRunConfigDef (overlay (d_generate d) (Generate r))
        (overlay (d_artifact_storage d) (ArtifactStorage r))
        (overlay (d_commands d) (Commands r))
  end.

Definition decode_into (d : SpecDoc) (s : BuildSpec) : BuildSpec :=
  mkBuildSpec (overlay (d_name d) (Name s)) (overlay (d_version d) (Version s))
    (overlay (d_codebases d) (Codebases s)) (overlay (d_resources d) (Resources s))
    (overlay (d_build_steps d) (BuildSteps s))
    (decode_build_config (d_build_config d) (BuildCfg s))
    (overlay (d_env d) (Env s)) (overlay (d_env_files d) (EnvFiles s))
    (overlay (d_secrets d) (Secrets s))
    (decode_run_config (d_run_config_def d) (RunCfg s)).

Definition yaml_Unmarshal (data : Document) (s : BuildSpec) : result BuildSpec unit :=
  if yaml_ok data then Ok (decode_into (doc data) s) else Err tt.
Definition json_Unmarshal (data : Document) (s : BuildSpec) : result BuildSpec unit :=
  if json_ok data then Ok (decode_into (doc data) s) else Err tt.

(** The error returns of [LoadBuildSpecFromBytes], one per return site. *)
Inductive LoadError : Type :=
| ErrInvalidFormat          (* "invalid format. YAML error: ..., JSON error: ..." *)
| ErrParsing                (* "specification parsing failed (format: ...)" *)
| ErrNameVersionRequired    (* "the fields 'name' and 'version' are required ..." *)
| ErrNoSource               (* "no codebase, build_step, dockerfile or compose_file ..." *)
| ErrDockerfileAndCompose.  (* "don't specify 'dockerfile' et 'compose_file' ..." *)

Definition is_invalid_spec (e : LoadError) : bool :=
  match e with
  | ErrNameVersionRequired | ErrNoSource | ErrDockerfileAndCompose => true
  | _ => false
  end.

Definition with_defaults : BuildSpec :=
  mkBuildSpec "" "" [] [] []
    (mkBuildConfig "" "" "" "" ∅ [] [] false "docker" "" false false)
    ∅ [] [] (mkRunConfigDef true "docker" []).

(** The "Basic Validation" block of [LoadBuildSpecFromBytes]. *)
Definition validate_spec (spec : BuildSpec) : result BuildSpec LoadError :=
  if String.eqb (Name spec) "" || String.eqb (Version spec) "" then
    Err ErrNameVersionRequired
  else if Nat.eqb (length (Codebases spec)) 0 && Nat.eqb (length (BuildSteps spec)) 0
          && String.eqb (Dockerfile (BuildCfg spec)) ""
          && String.eqb (ComposeFile (BuildCfg spec)) "" then
    Err ErrNoSource
  else if negb (String.eqb (Dockerfile (BuildCfg spec)) "")
          && negb (String.eqb (ComposeFile (BuildCfg spec)) "") then
    Err ErrDockerfileAndCompose
  else Ok spec.

Definition LoadBuildSpecFromBytes (data : Document) (format : string)
  : result BuildSpec LoadError :=
  let spec := with_defaults in
  let decoded :=
    if String.eqb format ".json" then
      match json_Unmarshal data spec with Ok s => Ok s | Err _ => Err ErrParsing end
    else if String.eqb format ".yaml" || String.eqb format ".yml" then
      match yaml_Unmarshal data spec with Ok s => Ok s | Err _ => Err ErrParsing end
    else
      match yaml_Unmarshal data spec with
      | Ok s => Ok s
      | Err _ =>
          match json_Unmarshal data spec with
          | Ok s => Ok s
          | Err _ => Err ErrInvalidFormat
          end
      end in
  match decoded with
  | Err e => Err e
  | Ok spec => validate_spec spec
  end.

(** The decoded spec before validation ([None] when decoding fails). *)
Definition decoded_spec (data : Document) (format : string) : option BuildSpec :=
  if String.eqb format ".json" then
    (if json_ok data then Some (decode_into (doc data) with_defaults) else None)
  else if String.eqb format ".yaml" || String.eqb format ".yml" then
    (if yaml_ok data then Some (decode_into (doc data) with_defaults) else None)
  else if yaml_ok data || json_ok data then Some (decode_into (doc data) with_defaults)
  else None.

(** The invariants of the design document (section 3). *)
Definition spec_invariants_hold (s : BuildSpec) : Prop :=
  Name s <> "" /\ Version s <> "" /\
  (Codebases s <> [] \/ BuildSteps s <> [] \/ Dockerfile (BuildCfg s) <> ""
   \/ ComposeFile (BuildCfg s) <> "") /\
  ~ (Dockerfile (BuildCfg s) <> "" /\ ComposeFile (BuildCfg s) <> "").

End Spec.

Import Spec.

(** ** Resource download (step 4 of [Build], and [downloadFile]) *)

Module Resources.

Record HttpResponse : Type := mkResponse { StatusCode : nat; Body : string }.

Inductive download_error : Type :=
| ErrRequest (url : string)                 (* transport error of the GET *)
| ErrStatus (url : string) (status : nat)   (* "failed downloading of ..." *)
| ErrCreateTarget (path : string) (e : os_error).

(** [downloadFile]: GET [url]; anything but 200 fails; otherwise
    [os.Create(targetPath)] and copy the body. *)
Definition downloadFile (http_get : string -> option HttpResponse) (m : fsys)
    (url targetPath : string) : result fsys download_error :=
  match http_get url with
  | None => Err (ErrRequest url)
  | Some resp =>
      if negb (Nat.eqb (StatusCode resp) 200) then Err (ErrStatus url (StatusCode resp))
      else match write_file m targetPath (Body resp) with
           | Ok m' => Ok m'
           | Err e => Err (ErrCreateTarget targetPath e)
           end
  end.

(** [os.Remove]: unlinks the last component itself. *)
Definition os_remove (m : fsys) (p : string) : fsys :=
  match resolve_path m p false with
  | Some (_ :: _ as q) => delete (path_of q) m
  | _ => m
  end.

(** [targetFullPath := filepath.Join(buildDir, res.TargetPath)] *)
Definition resource_target (buildDir : string) (res : ResourceConfig) : string :=
  Join buildDir (resTargetPath res).

Inductive resource_error : Type :=
| ErrTargetDir (path : string)
| ErrDownload (url : string) (e : download_error)
| ErrExtract (path : string).

Section DownloadResources.
(** The HTTP client, and [extractArchive] (the archive engine above,
    reading the file at the given path). *)
Variable http_get : string -> option HttpResponse.
Variable extractArchive : fsys -> string -> string -> result fsys extract_error.

Fixpoint download_resources (buildDir : string) (rs : list ResourceConfig)
    (m : fsys) : result fsys resource_error :=
  match rs with
  | [] => Ok m
  | res :: rest =>
      let targetFullPath := resource_target buildDir res in
      let targetDir := Dir targetFullPath in
      match MkdirAll m targetDir with
      | Err _ => Err (ErrTargetDir targetFullPath)
      | Ok m1 =>
          match downloadFile http_get m1 (resURL res) targetFullPath with
          | Err e => Err (ErrDownload (resURL res) e)
          | Ok m2 =>
              if resExtract res then
                match extractArchive m2 targetFullPath targetDir with
                | Err _ => Err (ErrExtract targetFullPath)
                | Ok m3 => download_resources buildDir rest (os_remove m3 targetFullPath)
                end
              else download_resources buildDir rest m2
          end
      end
  end.
End DownloadResources.

End Resources.

Import Resources.

(** ** Build results, compose builds, tag resolution and the run manifest *)

Module Output.

Record ServiceOutput : Type := mkServiceOutput {
  soImageID : string; soImageSize : Z; soLogs : string
}.

(** [BuildResult]; the in-memory [Artifacts] and the float [BuildTime] are
    not read by the functions below and are left out. *)
Record BuildResult : Type := mkBuildResult {
  Success : bool; ImageID : string; ImageIDs : gmap string string;
  ImageSize : Z; ImageSizes : gmap string Z; ErrorMessage : string;
  Logs : string; B2ObjectNames : list string;
  LocalImagePaths : gmap string string; RunConfigPath : string;
  ServiceOutputs : gmap string ServiceOutput
}.

(** The result as [Build] creates it, every map made empty. *)
Definition initial_result : BuildResult :=
  mkBuildResult false "" ∅ 0%Z ∅ "" "" [] ∅ "" ∅.

(** [result.ServiceOutputs[Name] = ...] *)
Definition set_service_output (r : BuildResult) (svc : string) (o : ServiceOutput)
    : BuildResult :=
  mkBuildResult (Success r) (ImageID r) (ImageIDs r) (ImageSize r) (ImageSizes r)
    (ErrorMessage r) (Logs r) (B2ObjectNames r) (LocalImagePaths r)
    (RunConfigPath r) (<[svc := o]> (ServiceOutputs r)).

(** [result.ImageIDs[Name] = id; result.ImageSizes[Name] = size] *)
Definition set_service_image (r : BuildResult) (svc id : string) (size : Z)
    : BuildResult :=
  mkBuildResult (Success r) (ImageID r) (<[svc := id]> (ImageIDs r)) (ImageSize r)
    (<[svc := size]> (ImageSizes r)) (ErrorMessage r) (Logs r) (B2ObjectNames r)
    (LocalImagePaths r) (RunConfigPath r) (ServiceOutputs r).

(** [ComposeBuild]; [CacheFrom], [Labels] and [Network] are not read. *)
Record ComposeBuild : Type := mkComposeBuild {
  cbdContext : string; cbdDockerfile : string;
  cbdArgs : gmap string (option string); cbdTarget : string
}.

(** [ComposeService], with the two fields [buildComposeProject] reads. *)
Record ComposeService : Type := mkComposeService {
  csImage : string; csBuild : option ComposeBuild
}.

Section ComposeBuildSec.
(** The Docker engine: [buildSingleImage] gives the image ID, the build
    logs and an error (if any); [getImageSize] gives the size, [0] when
    the inspection fails. Image pulls only write logs. *)
Variable buildSingleImage : string -> string -> BuildSpec -> string * string * option string.
Variable getImageSize : string -> Z.

Definition compose_context (composeFileDir : string) (b : ComposeBuild) : string :=
  let contextPath := cbdContext b in
  Clean (if String.eqb contextPath "" || String.eqb contextPath "." then composeFileDir
         else if is_rooted contextPath then contextPath
         else Join composeFileDir contextPath).

(** Spec args first, overridden by the service's args (nil becomes [""]). *)
Definition service_args (spec : BuildSpec) (b : ComposeBuild) : gmap string string :=
  (default "" <$> cbdArgs b) ∪ Args (BuildCfg spec).

Definition service_spec (spec : BuildSpec) (svc : string) (b : ComposeBuild) : BuildSpec :=
  mkBuildSpec (Name spec +:+ "-" +:+ Version spec +:+ "-service-" +:+ svc) "latest"
    [] [] []
    (mkBuildConfig "" "" "" (cbdTarget b) (service_args spec b) [svc +:+ ":latest"] []
       (NoCache (BuildCfg spec)) "" "" (Pull (BuildCfg spec)) (BuildKit (BuildCfg spec)))
    ∅ [] [] zero_run_config.

(** One iteration of the loop over [project.Services]. *)
Definition compose_service_step (composeFileDir : string) (spec : BuildSpec)
    (svc : string) (service : ComposeService) (st : BuildResult * list string)
    : BuildResult * list string :=
  let '(r, buildErrors) := st in
  match csBuild service with
  | None => (r, buildErrors)
  | Some b =>
      let contextPath := compose_context composeFileDir b in
      let dockerfilePath :=
        if String.eqb (cbdDockerfile b) "" then "Dockerfile" else cbdDockerfile b in
      let '(imageID, logs, err) :=
        buildSingleImage contextPath (Join contextPath dockerfilePath)
          (service_spec spec svc b) in
      match err with
      | Some e =>
          (set_service_output r svc (mkServiceOutput "" 0%Z logs),
           (buildErrors ++ ["erreur lors du build du service '" +:+ svc +:+ "': " +:+ e])%list)
      | None =>
          let imageSize := getImageSize imageID in
          (set_service_output (set_service_image r svc imageID imageSize) svc
             (mkServiceOutput imageID imageSize logs), buildErrors)
      end
  end.

(** [buildComposeProject]: the updated result and [buildErrors]. Go visits
    the map in an unspecified order; [map_fold] fixes one. *)
Definition buildComposeProject (buildDir : string) (services : gmap string ComposeService)
    (spec : BuildSpec) (r : BuildResult) : BuildResult * list string :=
  let composeFileDir := Dir (Join buildDir (ComposeFile (BuildCfg spec))) in
  map_fold (compose_service_step composeFileDir spec) (r, []) services.
End ComposeBuildSec.

(** [finalImageTags] as computed in step 8 of [Build]. *)
Definition final_image_tags (spec : BuildSpec) (r : BuildResult) : gmap string (list string) :=
  if negb (String.eqb (ComposeFile (BuildCfg spec)) "") then
    map_imap (fun serviceName _ => Some [Name spec +:+ "_" +:+ serviceName +:+ ":latest"])
      (ServiceOutputs r)
  else if negb (String.eqb (ImageID r) "") then
    {[ Name spec := match Tags (BuildCfg spec) with
                    | [] => [Name spec +:+ ":" +:+ Version spec]
                    | ts => ts
                    end ]}
  else ∅.

(** [tags, ok := finalImageTags[serviceName]; ok && len(tags) > 0 && tags[0] != ""] *)
Definition first_tag (finalImageTags : gmap string (list string)) (serviceName : string)
    : option string :=
  match finalImageTags !! serviceName with
  | Some (t :: _) => if String.eqb t "" then None else Some t
  | _ => None
  end.

(** [imgID, ok := result.ImageIDs[serviceName]; ok && imgID != ""] *)
Definition service_image_id (r : BuildResult) (serviceName : string) : option string :=
  match ImageIDs r !! serviceName with
  | Some id => if String.eqb id "" then None else Some id
  | None => None
  end.

Definition getImageRefForRun (serviceName storageType : string) (r : BuildResult)
    (finalImageTags : gmap string (list string)) : string :=
  if String.eqb storageType "local" then
    match LocalImagePaths r !! serviceName with
    | Some path => if String.eqb path "" then "local:" +:+ serviceName +:+ "_image_not_found.tar"
                   else Base path
    | None => "local:" +:+ serviceName +:+ "_image_not_found.tar"
    end
  else if String.eqb storageType "docker" then
    match first_tag finalImageTags serviceName with
    | Some t => t
    | None =>
        match service_image_id r serviceName with
        | Some _ => serviceName +:+ ":latest"
        | None => "docker:" +:+ serviceName +:+ "_image_or_tag_not_found"
        end
    end
  else
    match first_tag finalImageTags serviceName with
    | Some t => t
    | None =>
        match service_image_id r serviceName with
        | Some imgID => imgID
        | None => "unknown_storage:" +:+ serviceName +:+ "_not_found"
        end
    end.

End Output.

Import Output.

(** ** Fetching a git codebase with go-git *)

Module Git.

(** The errors go-git returns that the code compares against, and any other. *)
Inductive GitErr : Type :=
| ErrAuthenticationRequired
| NoErrAlreadyUpToDate
| OtherErr (msg : string).

Definition git_error_string (e : GitErr) : string :=
  match e with
  | ErrAuthenticationRequired => "authentication required"
  | NoErrAlreadyUpToDate => "already up-to-date"
  | OtherErr msg => msg
  end.

(** [strings.Contains] *)
Definition contains (s substr : string) : bool :=
  match String.index 0 substr s with Some _ => true | None => false end.

(** What the file system and go-git answer, call by call: [None] is a nil
    error. [stat_dest] is [Ok true] when [destDir] exists, [Ok false] when
    [os.IsNotExist], [Err] for any other [os.Stat] error. The two
    [w.Checkout] calls get [checkout1] and [checkout2]. *)
Record GitEnv : Type := mkGitEnv {
  mkdir_parent : option string;
  stat_dest : result bool string;
  remove_dest : option string;
  clone : option GitErr;
  worktree : option string;
  checkout1 : option string;
  fetch : option GitErr;
  checkout2 : option string
}.

(** The go-git calls the function makes. [OpClone url branch depth]. *)
Inductive git_op : Type :=
| OpClone (url branch : string) (depth : nat)
| OpWorktree
| OpCheckout (hash : string)
| OpFetch (refspecs : list string).

Definition fetch_refspecs : list string :=
  ["+refs/heads/*:refs/remotes/origin/*"; "+refs/tags/*:refs/tags/*"].

Definition auth_message (source : string) : string :=
  "authentication require for the codebase fetching '" +:+ source
  +:+ "'. configure an auth provider (SSH key, token HTTPS)".

(** The clone and the optional commit checkout, after the destination has
    been prepared: the go-git calls made, and the returned error. *)
Definition clone_and_checkout (env : GitEnv) (config : CodebaseConfig) (destDir : string)
    : list git_op * result unit string :=
  let depth := if String.eqb (cbBranch config) "" then 0 else 1 in
  let ops0 := [OpClone (cbSource config) (cbBranch config) depth] in
  match clone env with
  | Some err =>
      (ops0,
       match err with
       | ErrAuthenticationRequired => Err (auth_message (cbSource config))
       | _ =>
           if contains (git_error_string err) "already exists" then
             Err ("the repertory '" +:+ destDir +:+ "' already existing (post verification error): "
                  +:+ git_error_string err)
           else
             Err ("error during the repository cloning '" +:+ cbSource config +:+ "' (branch: "
                  +:+ cbBranch config +:+ "): " +:+ git_error_string err)
       end)
  | None =>
      if String.eqb (cbCommit config) "" then (ops0, Ok tt)
      else
        let ops1 := (ops0 ++ [OpWorktree])%list in
        match worktree env with
        | Some e =>
            (ops1, Err ("cannot get the repository work tree '" +:+ cbSource config
                        +:+ "' after cloning: " +:+ e))
        | None =>
            let ops2 := (ops1 ++ [OpCheckout (cbCommit config)])%list in
            match checkout1 env with
            | None => (ops2, Ok tt)
            | Some err =>
                let ops3 := (ops2 ++ [OpFetch fetch_refspecs])%list in
                match fetch env with
                | None | Some NoErrAlreadyUpToDate =>
                    let ops4 := (ops3 ++ [OpCheckout (cbCommit config)])%list in
                    match checkout2 env with
                    | None => (ops4, Ok tt)
                    | Some err2 =>
                        (ops4, Err ("error during the checkout of the commit '" +:+ cbCommit config
                                    +:+ "' (after fetch): " +:+ err2))
                    end
                | Some errFetch =>
                    (ops3, Err ("error during the checkout of the commit '" +:+ cbCommit config
                                +:+ "' (" +:+ err +:+ ") and fetch also failed ("
                                +:+ git_error_string errFetch +:+ ")"))
                end
            end
        end
  end.

(** [fetchGitRepoWithGoGit]: [MkdirAll(Dir(destDir))], removal of an
    existing [destDir], then the clone and checkout. *)
Definition fetchGitRepoWithGoGit (env : GitEnv) (config : CodebaseConfig) (destDir : string)
    : list git_op * result unit string :=
  let parentDir := Dir destDir in
  match mkdir_parent env with
  | Some e => ([], Err ("cannot create the parent dir '" +:+ parentDir +:+ "': " +:+ e))
  | None =>
      match stat_dest env with
      | Ok true =>
          match remove_dest env with
          | Some e => ([], Err ("failed to remove the dest dir before cloning the repository '"
                                +:+ destDir +:+ "': " +:+ e))
          | None => clone_and_checkout env config destDir
          end
      | Ok false => clone_and_checkout env config destDir
      | Err e => ([], Err ("error during the dest repertory verification '" +:+ destDir
                           +:+ "': " +:+ e))
      end
  end.

(** The destination is ready for the clone. *)
Definition prepared (env : GitEnv) : bool :=
  match mkdir_parent env, stat_dest env with
  | None, Ok true => match remove_dest env with None => true | Some _ => false end
  | None, Ok false => true
  | _, _ => false
  end.

End Git.

Import Git.

(** ** Secrets *)

Module SecretFetching.

(** A [SecretFetcher], as the function its [GetSecret] method computes. *)
Definition SecretFetcher : Type := string -> result string string.

Definition DummySecretFetcher : SecretFetcher :=
  fun source => Ok ("dummy-secret-for-" +:+ source).

(** [BuildService.GetSecret]; [None] is a nil [secretFetcher]. *)
Definition GetSecret (secretFetcher : option SecretFetcher) (source : string)
    : result string string :=
  let fetcher := match secretFetcher with Some f => f | None => DummySecretFetcher end in
  fetcher source.

(** The loop of step 3 of [Build]. *)
Fixpoint build_secrets_loop (f : SecretFetcher) (ss : list SecretSpec)
    (runtimeSecrets : gmap string string) : result (gmap string string) string :=
  match ss with
  | [] => Ok runtimeSecrets
  | secretSpec :: rest =>
      if String.eqb (secInjectMethod secretSpec) "" || String.eqb (secInjectMethod secretSpec) "env"
      then match f (secSource secretSpec) with
           | Err e => Err ("error during the secret creation '" +:+ secName secretSpec
                           +:+ "' (source: " +:+ secSource secretSpec +:+ "): " +:+ e)
           | Ok v => build_secrets_loop f rest (<[secName secretSpec := v]> runtimeSecrets)
           end
      else build_secrets_loop f rest runtimeSecrets
  end.

(** Step 3 of [Build]: [runtimeSecrets], or the build's error message. *)
Definition build_secrets (secretFetcher : option SecretFetcher) (spec : BuildSpec)
    : result (gmap string string) string :=
  match secretFetcher with
  | Some f => if Nat.eqb (length (Secrets spec)) 0 then Ok ∅
              else build_secrets_loop f (Secrets spec) ∅
  | None => Ok ∅
  end.

(** The loop of step 3 of [runBuildLogic], through [s.GetSecret]. *)
Fixpoint run_secrets_loop (secretFetcher : option SecretFetcher) (ss : list SecretSpec)
    (runtimeSecrets : gmap string string) : result (gmap string string) string :=
  match ss with
  | [] => Ok runtimeSecrets
  | secretSpec :: rest =>
      match GetSecret secretFetcher (secSource secretSpec) with
      | Err e => Err ("failed to fetch secret '" +:+ secName secretSpec
                      +:+ "' (source: " +:+ secSource secretSpec +:+ "): " +:+ e)
      | Ok v => run_secrets_loop secretFetcher rest (<[secName secretSpec := v]> runtimeSecrets)
      end
  end.

Definition run_build_secrets (secretFetcher : option SecretFetcher) (spec : BuildSpec)
    : result (gmap string string) string :=
  match secretFetcher with
  | Some _ => if Nat.eqb (length (Secrets spec)) 0 then Ok ∅
              else run_secrets_loop secretFetcher (Secrets spec) ∅
  | None => Ok ∅
  end.

(** [finalRuntimeEnv]: [mergedEnv], overridden by the secrets. *)
Definition final_runtime_env (mergedEnv runtimeSecrets : gmap string string)
    : gmap string string :=
  runtimeSecrets ∪ mergedEnv.

End SecretFetching.

Import SecretFetching.

(** ** The socket server: build requests, the notifier, the send queue *)

Module Socket.

(** The messages of one connection's send queue: the events of the build
    at hand, and [MOther] for the connection's other traffic. *)
Inductive Msg : Type :=
| MBuildQueued
| MLogChunk (content : string)
| MBuildStatus (status : string)
| MOther.

Definition is_build_event (m : Msg) : bool :=
  match m with MLogChunk _ | MBuildStatus _ => true | _ => false end.

(** [send: make(chan *Message, 256)] *)
Definition send_capacity : nat := 256.

(** [connection.sendMsg]: a non-blocking send, the message is dropped when
    the buffer is full. *)
Definition sendMsg (q : list Msg) (m : Msg) : list Msg :=
  if Nat.ltb (length q) send_capacity then (q ++ [m])%list else q.

(** The atomic steps of the goroutines involved. [ILookup] is
    [getClientForBuild] (under the read lock), [ISendStatus] and [ISendLog]
    the [sendMsg] of [NotifyStatus] and [NotifyLog] (or, for a status and no
    client, the [unregisterBuild] before returning), [IUnregisterIfFinal]
    the final [unregisterBuild] of [NotifyStatus]. *)
#[local] Set Warnings "-register-all".
Inductive instr : Type :=
| IAck
| IRegister
| ISpawn (body : list instr)
| IStartBuildAsync (buildID : string) (data : Document)
| ILookup
| ISendStatus (status : string)
| IUnregisterIfFinal (status : string)
| ISendLog (content : string)
| ISendOther.

Definition NotifyStatus (status : string) : list instr :=
  [ILookup; ISendStatus status; IUnregisterIfFinal status].

Definition NotifyLog (content : string) : list instr := [ILookup; ISendLog content].

(** The [EvtBuildRequest] case of [handleMessage], for an accepted request:
    [client.sendMsg(ackMsg)], [registerBuildClient], then the goroutine that
    calls [StartBuildAsync] and, on error, [NotifyStatus(.., "failure", ..)]. *)
Definition handle_build_request (buildID : string) (data : Document) : list instr :=
  [IAck; IRegister; ISpawn [IStartBuildAsync buildID data]].

(** A goroutine: its remaining steps and its local [clientConn] (non-nil). *)
Record thread : Type := mkThread { code : list instr; client : bool }.

(** [registered]: [buildToClient[buildID]] is set. [delivered]: the
    messages [writePump] has written to the websocket, in order. *)
Record state : Type := mkState {
  queue : list Msg; delivered : list Msg; registered : bool; threads : list thread
}.

(** A scheduler choice: a step of goroutine [i], or one message written by
    [writePump]. *)
Inductive choice : Type := Run (i : nat) | Write.

Section Machine.
(** [runBuildLogic] after its first two notifications: the rest of the
    build, as the notifier calls it makes. *)
Variable run_rest : BuildSpec -> list instr.

(** [runBuildLogic]: [buildLogger.Println("Starting build process...")],
    [NotifyStatus(buildID, "starting", ...)], then the rest. *)
Definition runBuildLogic (buildID : string) (spec : BuildSpec) : list instr :=
  (NotifyLog ("[" +:+ buildID +:+ "] Starting build process..." +:+ String "010"%char "")
   ++ NotifyStatus "starting" ++ run_rest spec)%list.

Definition is_final (status : string) : bool :=
  String.eqb status "success" || String.eqb status "failure".

(** Goroutine [i], running [t], takes one step. *)
Definition exec (st : state) (i : nat) (t : thread) : option state :=
  let q := queue st in
  let d := delivered st in
  let reg := registered st in
  let ths := threads st in
  match code t with
  | [] => None
  | ins :: rest =>
      let cont cl := <[i := mkThread rest cl]> ths in
      match ins with
      | IAck => Some (mkState (sendMsg q MBuildQueued) d reg (cont (client t)))
      | IRegister => Some (mkState q d true (cont (client t)))
      | ISpawn body =>
          Some (mkState q d reg (cont (client t) ++ [mkThread body false])%list)
      | IStartBuildAsync buildID data =>
          match LoadBuildSpecFromBytes data ".yaml" with
          | Err _ =>
              (* go notifier.NotifyStatus(.., "failure", ..); return err;
                 then the caller's NotifyStatus(.., "failure", ..) *)
              Some (mkState q d reg
                      (<[i := mkThread (NotifyStatus "failure" ++ rest)%list (client t)]> ths
                       ++ [mkThread (NotifyStatus "failure") false])%list)
          | Ok spec =>
              Some (mkState q d reg
                      (cont (client t) ++ [mkThread (runBuildLogic buildID spec) false])%list)
          end
      | ILookup => Some (mkState q d reg (cont reg))
      | ISendStatus status =>
          if client t then Some (mkState (sendMsg q (MBuildStatus status)) d reg (cont true))
          else Some (mkState q d false (cont false))
      | IUnregisterIfFinal status =>
          Some (mkState q d (if client t && is_final status then false else reg)
                  (cont (client t)))
      | ISendLog content =>
          Some (mkState (if client t then sendMsg q (MLogChunk content) else q) d reg
                  (cont (client t)))
      | ISendOther => Some (mkState (sendMsg q MOther) d reg (cont (client t)))
      end
  end.

Definition step (st : state) (c : choice) : option state :=
  match c with
  | Run i => match threads st !! i with Some t => exec st i t | None => None end
  | Write =>
      match queue st with
      | m :: q' => Some (mkState q' (delivered st ++ [m])%list (registered st) (threads st))
      | [] => None
      end
  end.

Fixpoint run (st : state) (sched : list choice) : option state :=
  match sched with
  | [] => Some st
  | c :: cs => match step st c with Some st' => run st' cs | None => None end
  end.
End Machine.

(** A connection that receives a build request while its queue holds [q0]
    and other goroutines [others] also send on it. *)
Definition initial_state (buildID : string) (data : Document) (q0 : list Msg)
    (others : list thread) : state :=
  mkState q0 [] false (mkThread (handle_build_request buildID data) false :: others).

(** No [client.sendMsg(ackMsg)] anywhere in a goroutine body. *)
Fixpoint no_ack (i : instr) : bool :=
  match i with
  | IAck => false
  | ISpawn body => (fix go (l : list instr) : bool :=
                      match l with [] => true | x :: r => no_ack x && go r end) body
  | _ => true
  end.

(** Every build event of [l] comes after a [build_queued]. *)
Definition queued_first (l : list Msg) : Prop :=
  forall j m, l !! j = Some m -> is_build_event m = true ->
    exists j', j' < j /\ l !! j' = Some MBuildQueued.

(** A goroutine that only sends the connection's other traffic. *)
Definition only_other (t : thread) : Prop := Forall (eq ISendOther) (code t).

(** The states before the reply is sent ([pre]) and after ([post]); the
    messages ever enqueued are [delivered ++ queue]. *)
Definition pre (buildID : string) (data : Document) (st : state) : Prop :=
  Forall (eq MOther) (delivered st ++ queue st)%list /\
  exists cl rest0, threads st = mkThread (handle_build_request buildID data) cl :: rest0
                   /\ Forall only_other rest0.

Definition post (st : state) : Prop :=
  Forall (fun t => forallb no_ack (code t) = true) (threads st) /\
  (In MBuildQueued (delivered st ++ queue st)%list -> queued_first (delivered st ++ queue st)%list).

End Socket.

Import Socket.

(** ** Archive format detection ([extractArchive], [extractBufferToDir]) *)

Module ArchiveFormat.

(** The error returns of the two functions; the entry errors are those of
    [extractTar] and [extractZip]. [ErrGzipReader] carries the archive path
    ([None] for a buffer). *)
Inductive archive_error : Type :=
| ErrOpen (path : string)                 (* "cannot open the archive ..." *)
| ErrReadHeader (path : string)           (* "cannot read the archive header ..." *)
| ErrGzipReader (path : option string)    (* [gzip.NewReader] failed *)
| ErrZipOpen                              (* "error during the zip opening" *)
| ErrTarRead                              (* "error during the tar entry reading" *)
| ErrEntry (e : extract_error).

(** [[]byte{0x1F, 0x8B}] and [[]byte{0x50, 0x4B, 0x03, 0x04}] *)
Definition gzip_magic : string := String "031"%char (String "139"%char EmptyString).
Definition zip_magic : string :=
  String "080"%char (String "075"%char (String "003"%char (String "004"%char EmptyString))).

(** [header := make([]byte, 4); file.ReadAt(header, 0)]: the first four
    bytes of the file, the rest of the buffer left zero when the file is
    shorter (the [io.EOF] is ignored). *)
Definition read_header (data : string) : string :=
  String.substring 0 4
    (data +:+ String "000"%char (String "000"%char (String "000"%char (String "000"%char EmptyString)))).

Section Readers.
(** The decoders of the standard library: [tar_read] gives the entries
    [tar.Reader.Next] yields and whether it then fails (rather than
    reaching [io.EOF]); [gunzip] is [gzip.NewReader] ([None] when it
    fails); [zip_read] is [zip.NewReader] and its [File] list. *)
Variable tar_read : string -> list Header * bool.
Variable gunzip : string -> option string.
Variable zip_read : string -> option (list ZipFile).

(** [extractTar(tar.NewReader(...), destDir)] *)
Definition extract_tar_stream (raw destDir : string) (m : fsys) : result fsys archive_error :=
  let '(entries, read_fails) := tar_read raw in
  match extractTar entries destDir m with
  | Err e => Err (ErrEntry e)
  | Ok m' => if read_fails then Err ErrTarRead else Ok m'
  end.

(** [extractZip(r, size, destDir)] *)
Definition extract_zip_stream (raw destDir : string) (m : fsys) : result fsys archive_error :=
  match zip_read raw with
  | None => Err ErrZipOpen
  | Some files =>
      match extractZip files destDir m with
      | Ok m' => Ok m'
      | Err e => Err (ErrEntry e)
      end
  end.

(** [BuildService.extractArchive]: [os.Open] of a directory succeeds and
    its [ReadAt] fails. *)
Definition extractArchive (m : fsys) (sourcePath destDir : string)
    : result fsys archive_error :=
  match stat m sourcePath with
  | Some (NFile data) =>
      let header := read_header data in
      if HasPrefix header gzip_magic then
        match gunzip data with
        | None => Err (ErrGzipReader (Some sourcePath))
        | Some raw => extract_tar_stream raw destDir m
        end
      else if HasPrefix header zip_magic then extract_zip_stream data destDir m
      else extract_tar_stream data destDir m
  | Some NDir => Err (ErrReadHeader sourcePath)
  | _ => Err (ErrOpen sourcePath)
  end.

(** [BuildService.extractBufferToDir] *)
Definition extractBufferToDir (data destDir : string) (m : fsys)
    : result fsys archive_error :=
  if HasPrefix data gzip_magic then
    match gunzip data with
    | None => Err (ErrGzipReader None)
    | Some raw => extract_tar_stream raw destDir m
    end
  else if HasPrefix data zip_magic then extract_zip_stream data destDir m
  else extract_tar_stream data destDir m.
End Readers.

End ArchiveFormat.

Import ArchiveFormat.

(** ** The run manifest ([generateRunYAML]) *)

Module RunManifest.

(** [ComposeService] with the fields [generateRunYAML] reads ([HealthCheck],
    [Labels], [Expose] and [StopGracePeriod] are not read). A nil
    [Environment] map is only ranged over, so it is the empty map here. *)
Record ComposeServiceDef : Type := mkComposeServiceDef {
  sdImage : string; sdBuild : option ComposeBuild; sdCommand : list string;
  sdEntrypoint : list string; sdEnvironment : gmap string (option string);
  sdPorts : list string; sdVolumes : list string; sdDependsOn : list string;
  sdRestart : string
}.

(** The two fields [buildComposeProject] reads. *)
Definition to_compose_service (s : ComposeServiceDef) : ComposeService :=
  mkComposeService (sdImage s) (sdBuild s).

Record ComposeProject : Type := mkComposeProject {
  cpVersion : string; cpServices : gmap string ComposeServiceDef; cpName : string
}.

Record RunService : Type := mkRunService {
  rsImage : string; rsCommand : list string; rsEntrypoint : list string;
  rsEnvironment : gmap string string; rsPorts : list string; rsVolumes : list string;
  rsRestart : string; rsDependsOn : list string
}.

Record RunYAML : Type := mkRunYAML { ryVersion : string; ryServices : gmap string RunService }.

(** The body of the loop over [composeProject.Services]: the runtime env
    first, then the service's env ([nil] values become [""]). *)
Definition compose_run_service (spec : BuildSpec) (r : BuildResult)
    (runtimeEnv : gmap string string) (finalImageTags : gmap string (list string))
    (serviceName : string) (service : ComposeServiceDef) : RunService :=
  mkRunService
    (getImageRefForRun serviceName (ArtifactStorage (RunCfg spec)) r finalImageTags)
    (sdCommand service) (sdEntrypoint service)
    ((default "" <$> sdEnvironment service) ∪ runtimeEnv)
    (sdPorts service) (sdVolumes service) (sdRestart service) (sdDependsOn service).

(** [generateRunYAML]; it never returns an error. *)
Definition generateRunYAML (spec : BuildSpec) (r : BuildResult)
    (runtimeEnv : gmap string string) (finalImageTags : gmap string (list string))
    (composeProject : option ComposeProject) : result RunYAML string :=
  Ok (mkRunYAML "1.0"
    match composeProject with
    | Some p =>
        map_imap (fun serviceName service =>
                    Some (compose_run_service spec r runtimeEnv finalImageTags serviceName service))
          (cpServices p)
    | None =>
        let mainServiceName := Name spec in
        if bool_decide (ImageIDs r !! mainServiceName = None)
           && negb (String.eqb (ArtifactStorage (RunCfg spec)) "local") then ∅
        else {[ mainServiceName :=
                  mkRunService
                    (getImageRefForRun mainServiceName (ArtifactStorage (RunCfg spec)) r finalImageTags)
                    (Commands (RunCfg spec)) [] runtimeEnv [] [] "" [] ]}
    end).

End RunManifest.

Import RunManifest.

(** ** Properties of the notifier *)

(** No [registerBuildClient] anywhere in a goroutine body. *)
Fixpoint no_register (i : instr) : bool :=
  match i with
  | IRegister => false
  | ISpawn body => (fix go (l : list instr) : bool :=
                      match l with [] => true | x :: r => no_register x && go r end) body
  | _ => true
  end.

(** The inject methods step 3 of [Build] fetches. *)
Definition env_injected (s : SecretSpec) : bool :=
  String.eqb (secInjectMethod s) "" || String.eqb (secInjectMethod s) "env".

(** Extraction keeps what was there: no path disappears and a directory
    stays a directory. *)
Definition keeps_entries (m m' : fsys) : Prop :=
  (forall k, is_Some (m !! k) -> is_Some (m' !! k)) /\
  (forall k, m !! k = Some NDir -> m' !! k = Some NDir).

(** Every symbolic link of [m'] was already in [m]. *)
Definition no_new_links (m m' : fsys) : Prop :=
  forall k t, m' !! k = Some (NSymlink t) -> m !! k = Some (NSymlink t).

(** Lexical containment: the cleaned path [p] is [root] followed by at least
    one more component. *)
Definition under_dir (root p : string) : Prop :=
  exists rest, rest <> [] /\ clean_elems p = (clean_elems root ++ rest)%list.

(** * Properties *)

Example clean_ex1 : Clean "/work/b/../../etc/x" = "/etc/x".
Proof. reflexivity. Qed.
Example clean_ex2 : Clean "a//./b/../c/" = "a/c".
Proof. reflexivity. Qed.
Example clean_ex3 : Clean "../../x" = "../../x".
Proof. reflexivity. Qed.
Example clean_ex4 : Clean "" = "." /\ Clean "/.." = "/".
Proof. split; reflexivity. Qed.
Example join_ex : Join "/work/b" "../../etc/passwd" = "/etc/passwd".
Proof. reflexivity. Qed.
Example dir_ex : Dir "/work/b/x" = "/work/b" /\ Dir "x" = "." /\ Dir "/x" = "/".
Proof. repeat split; reflexivity. Qed.
Example base_ex : Base "/out/demo_web.tar" = "demo_web.tar" /\ Base "a/b/" = "b"
  /\ Base "///" = "/".
Proof. repeat split; reflexivity. Qed.

(** A build directory on a host with an [/etc/passwd]. *)
Definition host_fs : fsys :=
  <["/" := NDir]> (<["/etc" := NDir]> (<["/etc/passwd" := NFile "root:x:0:0"]>
  (<["/work" := NDir]> (<["/work/b" := NDir]> ∅)))).

Example extract_plain :
  extractTar [mkHeader "src/main.go" TypeReg "" "package main"] "/work/b" host_fs
  = Ok (<["/work/b/src/main.go" := NFile "package main"]>
        (<["/work/b/src" := NDir]> host_fs)).
Proof. vm_compute. reflexivity. Qed.

Example extract_dotdot :
  extractTar [mkHeader "../../etc/passwd" TypeReg "" "x"] "/work/b" host_fs
  = Err (ErrEscape "../../etc/passwd").
Proof. vm_compute. reflexivity. Qed.

(** C1 (failing input): a tar whose first entry is a symlink [x] pointing to
    [/etc/passwd] and whose second entry is a regular file [x]: both entry
    names pass the containment check, and writing the second entry follows
    the link, so [/etc/passwd], outside the extraction root, is overwritten. *)
Theorem extractTar_symlink_escape :
  let entries := [mkHeader "x" TypeSymlink "/etc/passwd" "";
                  mkHeader "x" TypeReg "" "pwned"] in
  (forall h, In h entries -> inside_dest "/work/b" (Join "/work/b" (hName h)) = true) /\
  exists m', extractTar entries "/work/b" host_fs = Ok m' /\
    inside_dest "/work/b" "/etc/passwd" = false /\
    host_fs !! "/etc/passwd" = Some (NFile "root:x:0:0") /\
    m' !! "/etc/passwd" = Some (NFile "pwned").
Proof.
  simpl. split.
  - intros h [<-|[<-|[]]]; reflexivity.
  - eexists. split; [vm_compute; reflexivity|]. vm_compute. auto.
Qed.

Example extract_symlink_dir :
  exists m', extractTar [mkHeader "d" TypeSymlink "/etc" "";
                        mkHeader "d/evil" TypeReg "" "x"] "/work/b" host_fs = Ok m'
  /\ host_fs !! "/etc/evil" = None /\ m' !! "/etc/evil" = Some (NFile "x").
Proof. eexists. split; [vm_compute; reflexivity|]. vm_compute. auto. Qed.

(** *** Spec loading *)

Lemma load_decoded (data : Document) (format : string) :
  LoadBuildSpecFromBytes data format =
  match decoded_spec data format with
  | Some s => validate_spec s
  | None => Err (if String.eqb format ".json" || String.eqb format ".yaml"
                    || String.eqb format ".yml" then ErrParsing else ErrInvalidFormat)
  end.
Proof.
  unfold LoadBuildSpecFromBytes, decoded_spec, json_Unmarshal, yaml_Unmarshal.
  destruct (String.eqb format ".json"); simpl;
    [destruct (json_ok data); reflexivity|].
  destruct (String.eqb format ".yaml"); simpl;
    [destruct (yaml_ok data); reflexivity|].
  destruct (String.eqb format ".yml"); simpl;
    destruct (yaml_ok data), (json_ok data); reflexivity.
Qed.

Lemma validate_spec_spec (s : BuildSpec) :
  (forall e, validate_spec s = Err e -> is_invalid_spec e = true) /\
  (is_err (validate_spec s) = true <-> ~ spec_invariants_hold s) /\
  (spec_invariants_hold s -> validate_spec s = Ok s).
Proof.
  unfold validate_spec, spec_invariants_hold.
  destruct (String.eqb_spec (Name s) ""), (String.eqb_spec (Version s) "");
    destruct (Codebases s) as [|c cs], (BuildSteps s) as [|b bs];
    destruct (String.eqb_spec (Dockerfile (BuildCfg s)) ""),
             (String.eqb_spec (ComposeFile (BuildCfg s)) ""); simpl;
    (split; [intros ? He; inversion He; reflexivity|]);
    unfold not in *; intuition (try discriminate; try congruence).
Qed.

(** A YAML document [name: demo, version: "1", build_config: {dockerfile:
    app/Dockerfile}] with no [output_target] and no [run_config_def]. *)
Definition demo_bc_doc : BuildConfigDoc :=
  mkBuildConfigDoc None (Some "app/Dockerfile") None None None None None None
    None None None None.
Definition demo_doc : Document :=
  mkDocument true true
    (mkSpecDoc (Some "demo") (Some "1") None None None (Some demo_bc_doc)
       None None None None).

(** ** C3 *)
(** Claim C3: once the spec text has been decoded (after the defaults),
    [LoadBuildSpecFromBytes] fails exactly when one of the invariants is
    violated (empty name, empty version, none of codebases / build steps /
    dockerfile / compose file, or both dockerfile and compose file), every
    such failure is one of the three InvalidSpec errors, and a spec that
    satisfies all invariants is returned as decoded. *)
Theorem LoadBuildSpecFromBytes_invalid_spec_iff (data : Document) (format : string)
    (s : BuildSpec) :
  decoded_spec data format = Some s ->
  (forall e, LoadBuildSpecFromBytes data format = Err e -> is_invalid_spec e = true) /\
  (is_err (LoadBuildSpecFromBytes data format) = true <-> ~ spec_invariants_hold s) /\
  (spec_invariants_hold s -> LoadBuildSpecFromBytes data format = Ok s).
Proof.
  intros Hd. rewrite load_decoded, Hd. apply validate_spec_spec.
Qed.

Lemma LoadBuildSpecFromBytes_invalid_spec_iff_witness :
  decoded_spec demo_doc ".yaml" = Some (decode_into (doc demo_doc) with_defaults) /\
  LoadBuildSpecFromBytes demo_doc ".yaml" = Ok (decode_into (doc demo_doc) with_defaults).
Proof.
  split; [reflexivity|].
  apply (LoadBuildSpecFromBytes_invalid_spec_iff demo_doc ".yaml"); [reflexivity|].
  unfold spec_invariants_hold; simpl.
  split; [discriminate|]. split; [discriminate|]. split.
  - right; right; left; discriminate.
  - intros [_ H]. apply H. reflexivity.
Defined.

(** ** C9 *)
(** Claim C9: a loaded spec has [output_target], [run_config_def.generate]
    and [run_config_def.artifact_storage] equal to the value given in the
    document when the key is present, and to the defaults ["docker"],
    [true] and ["docker"] when it is absent. *)
Theorem LoadBuildSpecFromBytes_defaults (data : Document) (format : string)
    (s : BuildSpec) :
  LoadBuildSpecFromBytes data format = Ok s ->
  OutputTarget (BuildCfg s) =
    default "docker" (d_build_config (doc data) ≫= d_output_target) /\
  Generate (RunCfg s) = default true (d_run_config_def (doc data) ≫= d_generate) /\
  ArtifactStorage (RunCfg s) =
    default "docker" (d_run_config_def (doc data) ≫= d_artifact_storage).
Proof.
  rewrite load_decoded. intros H.
  assert (Hs : exists s0, decoded_spec data format = Some s0 /\ validate_spec s0 = Ok s).
  { destruct (decoded_spec data format) as [s0|]; [eauto|discriminate]. }
  destruct Hs as (s0 & Hd & Hv).
  assert (s0 = s) as <-.
  { revert Hv. unfold validate_spec.
    repeat match goal with |- context [if ?b then _ else _] => destruct b end;
      congruence. }
  assert (Hs0 : s0 = decode_into (doc data) with_defaults).
  { unfold decoded_spec in Hd.
    repeat match type of Hd with context [if ?b then _ else _] => destruct b end;
      congruence. }
  subst s0. unfold decode_into, decode_build_config, decode_run_config. simpl.
  destruct (d_build_config (doc data)) as [bc|], (d_run_config_def (doc data)) as [rc|];
    simpl; repeat split.
Qed.

Lemma LoadBuildSpecFromBytes_defaults_witness :
  LoadBuildSpecFromBytes demo_doc ".yaml" = Ok (decode_into (doc demo_doc) with_defaults) /\
  OutputTarget (BuildCfg (decode_into (doc demo_doc) with_defaults)) = "docker" /\
  Generate (RunCfg (decode_into (doc demo_doc) with_defaults)) = true.
Proof.
  assert (H : LoadBuildSpecFromBytes demo_doc ".yaml"
              = Ok (decode_into (doc demo_doc) with_defaults)) by reflexivity.
  split; [exact H|].
  destruct (LoadBuildSpecFromBytes_defaults demo_doc ".yaml" _ H) as (H1 & H2 & _).
  split; [exact H1 | exact H2].
Defined.

(** *** Resource target paths *)

Definition cron_get (url : string) : option HttpResponse :=
  if String.eqb url "https://example.com/job" then Some (mkResponse 200 "* * * * * root sh")
  else None.

Definition no_extract (m : fsys) (_ _ : string) : result fsys extract_error := Ok m.

(** C4 (failing input): a resource with [target_path = "../../etc/cron.d/job"]
    is downloaded to [filepath.Join("/work/b", target_path)] = [/etc/cron.d/job],
    outside the build directory [/work/b]: [Build] applies no path-traversal
    sanitation to [target_path]. *)
Theorem download_resources_escape :
  exists m',
    download_resources cron_get no_extract "/work/b"
      [mkResource "https://example.com/job" "../../etc/cron.d/job" false] host_fs = Ok m' /\
    host_fs !! "/etc/cron.d/job" = None /\
    m' !! "/etc/cron.d/job" = Some (NFile "* * * * * root sh") /\
    ~ under_dir "/work/b" "/etc/cron.d/job".
Proof.
  eexists. split; [vm_compute; reflexivity|]. split; [reflexivity|]. split; [reflexivity|].
  intros (rest & _ & H). vm_compute in H. discriminate H.
Qed.


(** ** Image tags *)

(** A compose build with spec tags: service [web] is built from source,
    [db] only uses the [postgres:16] image. *)
Definition demo_compose_spec : BuildSpec :=
  mkBuildSpec "demo" "1.0" [] [] []
    (mkBuildConfig "" "" "docker-compose.yml" "" ∅ ["demo:1.0"] [] false "docker" ""
       false false)
    ∅ [] [] (mkRunConfigDef true "docker" []).

Definition demo_services : gmap string ComposeService :=
  {[ "web" := mkComposeService "" (Some (mkComposeBuild "." "" ∅ ""));
     "db" := mkComposeService "postgres:16" None ]}.

(** An engine on which every build succeeds. *)
Definition demo_engine (contextPath dockerfile : string) (s : BuildSpec)
    : string * string * option string :=
  ("sha256:" +:+ Name s, "Step 1/1", None).

Definition demo_size (_ : string) : Z := 42%Z.

(** C7 (counterexample): the compose build of [demo_compose_spec] succeeds,
    the spec supplies the tag [demo:1.0], yet service [web] is tagged
    [demo_web:latest] and service [db] gets no tag at all. *)
Theorem compose_tags_ignore_spec_tags :
  let '(r, buildErrors) :=
    buildComposeProject demo_engine demo_size "/work/b" demo_services
      demo_compose_spec initial_result in
  buildErrors = [] /\ Tags (BuildCfg demo_compose_spec) = ["demo:1.0"] /\
  final_image_tags demo_compose_spec r !! "web" = Some ["demo_web:latest"] /\
  final_image_tags demo_compose_spec r !! "db" = None.
Proof. vm_compute. repeat split. Qed.

Section ComposeOutputs.
Variable buildSingleImage : string -> string -> BuildSpec -> string * string * option string.
Variable getImageSize : string -> Z.

Definition has_build (s : ComposeService) : Prop := exists b, csBuild s = Some b.

Lemma compose_step_errors_grow dir spec svc service st :
  exists more, snd (compose_service_step buildSingleImage getImageSize dir spec svc service st)
               = (snd st ++ more)%list.
Proof.
  destruct st as [r errs]; unfold compose_service_step; cbn.
  destruct (csBuild service) as [b|]; [|exists []; cbn; by rewrite app_nil_r].
  destruct (buildSingleImage _ _ _) as [[imageID logs] [e|]]; cbn; eauto.
  exists []; by rewrite app_nil_r.
Qed.

(** With no build error, the services with an output are exactly the
    services that have a [build] section. *)
Lemma buildComposeProject_outputs buildDir services spec r0 :
  ServiceOutputs r0 = ∅ ->
  snd (buildComposeProject buildSingleImage getImageSize buildDir services spec r0) = [] ->
  forall k, is_Some (ServiceOutputs
               (fst (buildComposeProject buildSingleImage getImageSize buildDir services spec r0)) !! k)
            <-> exists s, services !! k = Some s /\ has_build s.
Proof.
  intros H0. unfold buildComposeProject.
  apply (map_fold_weak_ind
    (fun st m => snd st = [] -> forall k, is_Some (ServiceOutputs (fst st) !! k)
                 <-> exists s, m !! k = Some s /\ has_build s)).
  - intros _ k; cbn. rewrite H0, !lookup_empty. split; [intros [? Hx]; discriminate|].
    intros (? & Hx & _); discriminate.
  - intros i x m [r errs] Hi IH Hnil k.
    assert (Herrs : errs = []).
    { destruct (compose_step_errors_grow (Dir (Join buildDir (ComposeFile (BuildCfg spec))))
                  spec i x (r, errs)) as [more Hm].
      rewrite Hnil in Hm. cbn in Hm. symmetry in Hm. by apply app_eq_nil in Hm as [? _]. }
    subst errs. specialize (IH eq_refl).
    unfold compose_service_step in *; cbn in Hnil |- *.
    destruct (csBuild x) as [b|] eqn:Hb.
    + destruct (buildSingleImage _ _ _) as [[imageID logs] [e|]]; cbn in Hnil |- *;
        [discriminate|].
      destruct (decide (i = k)) as [<-|Hne].
      * rewrite lookup_insert_eq. split; intros _; [|eauto].
        exists x. rewrite lookup_insert_eq. split; [done|]. by exists b.
      * rewrite lookup_insert_ne, IH by done.
        setoid_rewrite lookup_insert_ne; [done|done].
    + cbn. destruct (decide (i = k)) as [<-|Hne].
      * rewrite IH, lookup_insert_eq. split; intros (s & Hs & Hbs).
        -- congruence.
        -- injection Hs as <-. destruct Hbs as [b Hb']. congruence.
      * rewrite IH. setoid_rewrite lookup_insert_ne; [done|done].
Qed.
End ComposeOutputs.

(** C7 (amended): in a compose build with no service build error, the
    spec's tags are not used: each service that has a [build] section is
    tagged exactly [{name}_{service}:latest] and the other services get no
    tag. In a single-image build that produced an image, the spec's tags are
    used when there are any, and [{name}:{version}] otherwise. *)
Theorem final_image_tags_resolution :
  (forall buildSingleImage getImageSize buildDir services spec r0 svc,
     ComposeFile (BuildCfg spec) <> "" ->
     ServiceOutputs r0 = ∅ ->
     snd (buildComposeProject buildSingleImage getImageSize buildDir services spec r0) = [] ->
     final_image_tags spec
       (fst (buildComposeProject buildSingleImage getImageSize buildDir services spec r0)) !! svc
     = services !! svc ≫= fun s =>
         match csBuild s with
         | Some _ => Some [Name spec +:+ "_" +:+ svc +:+ ":latest"]
         | None => None
         end) /\
  (forall spec r,
     ComposeFile (BuildCfg spec) = "" ->
     ImageID r <> "" ->
     final_image_tags spec r =
       {[ Name spec := match Tags (BuildCfg spec) with
                       | [] => [Name spec +:+ ":" +:+ Version spec]
                       | ts => ts
                       end ]}).
Proof.
  split.
  - intros buildSingleImage getImageSize buildDir services spec r0 svc Hc H0 Hnil.
    pose proof (buildComposeProject_outputs buildSingleImage getImageSize buildDir
                  services spec r0 H0 Hnil svc) as Hiff.
    unfold final_image_tags.
    apply String.eqb_neq in Hc. rewrite Hc. cbn.
    rewrite map_lookup_imap.
    destruct (ServiceOutputs _ !! svc) as [o|] eqn:Ho; cbn.
    + destruct (proj1 Hiff (ltac:(eauto))) as (s & Hs & b & Hb).
      by rewrite Hs; cbn; rewrite Hb.
    + destruct (services !! svc) as [s|] eqn:Hs; cbn; [|done].
      destruct (csBuild s) as [b|] eqn:Hb; [|done].
      destruct (proj2 Hiff (ltac:(exists s; split; [done|by exists b]))) as [? Hx].
      discriminate.
  - intros spec r Hc Hi. unfold final_image_tags.
    rewrite Hc. cbn. apply String.eqb_neq in Hi. by rewrite Hi.
Qed.

Lemma final_image_tags_resolution_witness :
  ComposeFile (BuildCfg demo_compose_spec) <> "" /\
  final_image_tags demo_compose_spec
    (fst (buildComposeProject demo_engine demo_size "/work/b" demo_services
            demo_compose_spec initial_result)) !! "web" = Some ["demo_web:latest"] /\
  final_image_tags (mkBuildSpec "api" "2.1" [] [] [] zero_build_config ∅ [] [] zero_run_config)
    (mkBuildResult true "sha256:9c" ∅ 0%Z ∅ "" "" [] ∅ "" ∅) = {[ "api" := ["api:2.1"] ]}.
Proof.
  split; [discriminate|]. split.
  - rewrite (proj1 final_image_tags_resolution demo_engine demo_size "/work/b" demo_services
               demo_compose_spec initial_result "web"); [reflexivity|discriminate|reflexivity|].
    vm_compute. reflexivity.
  - rewrite (proj2 final_image_tags_resolution
               (mkBuildSpec "api" "2.1" [] [] [] zero_build_config ∅ [] [] zero_run_config)
               (mkBuildResult true "sha256:9c" ∅ 0%Z ∅ "" "" [] ∅ "" ∅));
      [reflexivity|reflexivity|discriminate].
Defined.

(** ** Image references of the run manifest *)

(** A result with an image ID for [web] and none for [api]. *)
Definition demo_run_result : BuildResult :=
  mkBuildResult true "" {[ "web" := "sha256:1f2e" ]} 0%Z ∅ "" "" [] ∅ "" ∅.

(** C8 (counterexample): with [artifact_storage = "docker"] and no tag
    recorded, a service that has an image ID gets [{service}:latest], not
    its image ID, and a service with no image ID gets
    [docker:{service}_image_or_tag_not_found], not [{service}:latest]. *)
Theorem getImageRefForRun_docker_fallbacks :
  getImageRefForRun "web" "docker" demo_run_result ∅ = "web:latest" /\
  ImageIDs demo_run_result !! "web" = Some "sha256:1f2e" /\
  getImageRefForRun "api" "docker" demo_run_result ∅ = "docker:api_image_or_tag_not_found".
Proof. repeat split. Qed.

(** C8 (amended): for [local] storage the reference is the basename of
    the service's recorded local tar path, or
    [local:{service}_image_not_found.tar] when there is none (or it is
    empty). For [docker] storage it is the first recorded tag when that tag
    is non-empty; otherwise [{service}:latest] when the service has a
    non-empty image ID; otherwise [docker:{service}_image_or_tag_not_found]. *)
Theorem getImageRefForRun_selection svc r tags :
  (forall path, LocalImagePaths r !! svc = Some path -> path <> "" ->
     getImageRefForRun svc "local" r tags = Base path) /\
  ((forall path, LocalImagePaths r !! svc = Some path -> path = "") ->
     getImageRefForRun svc "local" r tags = "local:" +:+ svc +:+ "_image_not_found.tar") /\
  (forall t ts, tags !! svc = Some (t :: ts) -> t <> "" ->
     getImageRefForRun svc "docker" r tags = t) /\
  (first_tag tags svc = None -> forall id, ImageIDs r !! svc = Some id -> id <> "" ->
     getImageRefForRun svc "docker" r tags = svc +:+ ":latest") /\
  (first_tag tags svc = None -> (forall id, ImageIDs r !! svc = Some id -> id = "") ->
     getImageRefForRun svc "docker" r tags = "docker:" +:+ svc +:+ "_image_or_tag_not_found").
Proof.
  unfold getImageRefForRun. cbn [String.eqb Ascii.eqb Bool.eqb andb].
  repeat split.
  - intros path Hp Hne. rewrite Hp. apply String.eqb_neq in Hne. by rewrite Hne.
  - intros Hp. destruct (LocalImagePaths r !! svc) as [path|] eqn:Hl; [|done].
    by rewrite (Hp path eq_refl).
  - intros t ts Ht Hne. unfold first_tag. rewrite Ht.
    apply String.eqb_neq in Hne. by rewrite Hne.
  - intros Hf id Hid Hne. rewrite Hf. unfold service_image_id. rewrite Hid.
    apply String.eqb_neq in Hne. by rewrite Hne.
  - intros Hf Hid. rewrite Hf. unfold service_image_id.
    destruct (ImageIDs r !! svc) as [id|] eqn:Hi; [|done].
    by rewrite (Hid id eq_refl).
Qed.

Lemma getImageRefForRun_selection_witness :
  getImageRefForRun "web" "local"
    (mkBuildResult true "" ∅ 0%Z ∅ "" "" [] {[ "web" := "/out/demo_web.tar" ]} "" ∅) ∅
  = "demo_web.tar" /\
  getImageRefForRun "web" "docker" demo_run_result ∅ = "web:latest".
Proof.
  split.
  - refine (proj1 (getImageRefForRun_selection "web"
              (mkBuildResult true "" ∅ 0%Z ∅ "" "" [] {[ "web" := "/out/demo_web.tar" ]} "" ∅) ∅)
              "/out/demo_web.tar" eq_refl _).
    discriminate.
  - refine (proj1 (proj2 (proj2 (proj2 (getImageRefForRun_selection "web" demo_run_result ∅))))
              eq_refl "sha256:1f2e" eq_refl _).
    discriminate.
Defined.

(** ** Secrets without a fetcher *)

Definition demo_secret_spec : BuildSpec :=
  mkBuildSpec "demo" "1.0" [] [] [] zero_build_config {[ "APP_ENV" := "prod" ]} []
    [mkSecretSpec "DB_PASS" "vault/db" "env"] zero_run_config.

(** C10 (counterexample): without a fetcher, [GetSecret] does return the
    placeholder, but neither [Build] nor [runBuildLogic] fetches the spec's
    secret [DB_PASS]: the runtime environment has no [DB_PASS] at all. *)
Theorem nil_fetcher_skips_secrets :
  GetSecret None "vault/db" = Ok "dummy-secret-for-vault/db" /\
  build_secrets None demo_secret_spec = Ok ∅ /\
  run_build_secrets None demo_secret_spec = Ok ∅ /\
  final_runtime_env (Env demo_secret_spec) ∅ !! "DB_PASS" = None.
Proof. repeat split. Qed.

(** C10 (amended): without a fetcher, [GetSecret] never fails and returns
    [dummy-secret-for-<source>] for every source; the secret steps of
    [Build] and [runBuildLogic] are skipped, so every spec gets an empty
    set of runtime secrets and its environment is left unchanged. *)
Theorem nil_fetcher_secrets :
  (forall source, GetSecret None source = Ok ("dummy-secret-for-" +:+ source)) /\
  (forall spec, build_secrets None spec = Ok ∅ /\ run_build_secrets None spec = Ok ∅) /\
  (forall mergedEnv, final_runtime_env mergedEnv ∅ = mergedEnv).
Proof.
  split; [reflexivity|]. split; [done|].
  intros mergedEnv. unfold final_runtime_env. apply map_empty_union.
Qed.

(** ** Git codebases with a commit *)

Definition demo_git_codebase : CodebaseConfig :=
  mkCodebase "app" "git" "https://example.org/app.git" "main" "9fceb02" "" "" false "".

(** The commit is not in the depth-1 clone, and the fetch fails. *)
Definition demo_git_env : GitEnv :=
  mkGitEnv None (Ok false) None None None (Some "object not found")
    (Some (OtherErr "connection reset by peer")) None.

(** C6 (counterexample): when the checkout of the commit fails and the
    fetch of all refs fails too, the checkout is not retried: the function
    returns an error after one checkout. *)
Theorem git_fetch_failure_no_retry :
  fetchGitRepoWithGoGit demo_git_env demo_git_codebase "/work/b/app" =
    ([OpClone "https://example.org/app.git" "main" 1; OpWorktree; OpCheckout "9fceb02";
      OpFetch fetch_refspecs],
     Err ("error during the checkout of the commit '9fceb02' (object not found) and fetch also failed (connection reset by peer)")).
Proof. reflexivity. Qed.

(** C6 (amended): for a codebase with a commit, once the destination is
    prepared: an authentication failure of the clone, and only that, yields
    the error [auth_message]. After a clone and worktree that succeed, the
    commit is checked out. If that checkout fails, all branch and tag refs
    are fetched. If the fetch fails (other than "already up-to-date"), the
    function fails without a retry. Otherwise the checkout is retried
    exactly once, and the codebase fails exactly when that retry fails. *)
Theorem fetchGitRepo_commit_checkout env config destDir :
  cbCommit config <> "" -> prepared env = true ->
  let '(ops, r) := fetchGitRepoWithGoGit env config destDir in
  let base := [OpClone (cbSource config) (cbBranch config)
                 (if String.eqb (cbBranch config) "" then 0 else 1);
               OpWorktree; OpCheckout (cbCommit config)] in
  (r = Err (auth_message (cbSource config)) <-> clone env = Some ErrAuthenticationRequired) /\
  (clone env = None -> worktree env = None ->
     match checkout1 env with
     | None => ops = base /\ r = Ok tt
     | Some _ =>
         match fetch env with
         | None | Some NoErrAlreadyUpToDate =>
             ops = (base ++ [OpFetch fetch_refspecs; OpCheckout (cbCommit config)])%list /\
             (r = Ok tt <-> checkout2 env = None)
         | Some _ => ops = (base ++ [OpFetch fetch_refspecs])%list /\ is_err r = true
         end
     end).
Proof.
  intros Hc Hp.
  assert (Hcl : fetchGitRepoWithGoGit env config destDir = clone_and_checkout env config destDir).
  { unfold prepared, fetchGitRepoWithGoGit in *.
    destruct (mkdir_parent env); [discriminate|].
    destruct (stat_dest env) as [[|]|]; [|reflexivity|discriminate].
    destruct (remove_dest env); [discriminate|reflexivity]. }
  rewrite Hcl. clear Hcl Hp.
  apply String.eqb_neq in Hc.
  unfold clone_and_checkout. rewrite Hc.
  destruct (clone env) as [[| |msg]|] eqn:Hclone.
  - split; [split; reflexivity|]. intros; discriminate.
  - split; [|intros; discriminate]. split; [|discriminate].
    destruct (contains _ _); cbn; intros H; injection H; intros; discriminate.
  - split; [|intros; discriminate]. split; [|discriminate].
    destruct (contains _ _); cbn; intros H; injection H; intros; discriminate.
  - destruct (worktree env) as [e|].
    + split; [|intros _ ?; discriminate]. split; [|discriminate].
      cbn; intros H; injection H; intros; discriminate.
    + destruct (checkout1 env) as [e1|].
      * destruct (fetch env) as [[| |m]|].
        -- split; [split; [cbn; intros H; injection H; intros; discriminate|discriminate]|].
           intros _ _. split; [reflexivity|reflexivity].
        -- destruct (checkout2 env) as [e2|].
           ++ split; [split; [cbn; intros H; injection H; intros; discriminate|discriminate]|].
              intros _ _. split; [reflexivity|]. split; discriminate.
           ++ split; [split; discriminate|]. intros _ _. split; [reflexivity|tauto].
        -- split; [split; [cbn; intros H; injection H; intros; discriminate|discriminate]|].
           intros _ _. split; reflexivity.
        -- destruct (checkout2 env) as [e2|].
           ++ split; [split; [cbn; intros H; injection H; intros; discriminate|discriminate]|].
              intros _ _. split; [reflexivity|]. split; discriminate.
           ++ split; [split; discriminate|]. intros _ _. split; [reflexivity|tauto].
      * split; [split; discriminate|]. intros _ _. split; reflexivity.
Qed.

Lemma fetchGitRepo_commit_checkout_witness :
  cbCommit demo_git_codebase <> "" /\
  prepared (mkGitEnv None (Ok true) None None None (Some "object not found")
              (Some NoErrAlreadyUpToDate) None) = true /\
  let '(ops, r) := fetchGitRepoWithGoGit
                     (mkGitEnv None (Ok true) None None None (Some "object not found")
                        (Some NoErrAlreadyUpToDate) None)
                     demo_git_codebase "/work/b/app" in
  let base := [OpClone (cbSource demo_git_codebase) (cbBranch demo_git_codebase)
                 (if String.eqb (cbBranch demo_git_codebase) "" then 0 else 1);
               OpWorktree; OpCheckout (cbCommit demo_git_codebase)] in
  (r = Err (auth_message (cbSource demo_git_codebase)) <->
     clone (mkGitEnv None (Ok true) None None None (Some "object not found")
              (Some NoErrAlreadyUpToDate) None) = Some ErrAuthenticationRequired) /\
  (clone (mkGitEnv None (Ok true) None None None (Some "object not found")
            (Some NoErrAlreadyUpToDate) None) = None ->
   worktree (mkGitEnv None (Ok true) None None None (Some "object not found")
               (Some NoErrAlreadyUpToDate) None) = None ->
   ops = (base ++ [OpFetch fetch_refspecs; OpCheckout (cbCommit demo_git_codebase)])%list /\
   (r = Ok tt <-> checkout2 (mkGitEnv None (Ok true) None None None (Some "object not found")
                               (Some NoErrAlreadyUpToDate) None) = None)).
Proof.
  split; [discriminate|]. split; [reflexivity|].
  exact (fetchGitRepo_commit_checkout
           (mkGitEnv None (Ok true) None None None (Some "object not found")
              (Some NoErrAlreadyUpToDate) None)
           demo_git_codebase "/work/b/app" ltac:(discriminate) eq_refl).
Defined.

(** ** Build requests whose spec does not parse *)

(** A build whose remaining steps report success. *)
Definition success_rest (_ : BuildSpec) : list instr := NotifyStatus "success".

(** A build request whose YAML text [yaml.Unmarshal] rejects. *)
Definition unparsable_doc : Document :=
  mkDocument false false (mkSpecDoc None None None None None None None None None None).

(** Both failure notifiers read the registry before either unregisters. *)
Definition double_failure_schedule : list choice :=
  [Run 0; Run 0; Run 0; Run 1; Run 1; Run 2; Run 1; Run 2; Run 1; Run 2; Write; Write; Write].

(** C2 (failing input): a build request with unparsable YAML on an idle
    connection. The goroutine started by [StartBuildAsync] and the handler's
    goroutine both call [NotifyStatus(.., "failure", ..)]; when both look up
    the client before either unregisters the build, the connection is sent
    two terminal [failure] statuses (the build logic never starts). *)
Theorem unparsable_spec_two_failures :
  LoadBuildSpecFromBytes unparsable_doc ".yaml" = Err ErrParsing /\
  option_map delivered
    (run success_rest (initial_state "build-1" unparsable_doc [] []) double_failure_schedule)
  = Some [MBuildQueued; MBuildStatus "failure"; MBuildStatus "failure"].
Proof. split; reflexivity. Qed.

(** ** Ordering of the [build_queued] reply *)

(** The handler runs while the connection's queue is full; [writePump]
    then frees one slot before the build logs its first line. *)
Definition dropped_ack_schedule : list choice :=
  ([Run 0; Run 0; Run 0; Run 1; Write; Run 2; Run 2] ++ repeat Write send_capacity)%list.

(** C5 (counterexample): an accepted build request arriving while the
    send queue is full. [sendMsg] drops the [build_queued] reply, and the
    build's first [log_chunk] is delivered with no [build_queued] before it
    (or at all). *)
Theorem dropped_ack_log_first :
  LoadBuildSpecFromBytes demo_doc ".yaml" = Ok (decode_into (doc demo_doc) with_defaults) /\
  option_map (fun st => List.filter (fun m => match m with MOther => false | _ => true end)
                          (delivered st ++ queue st)%list)
    (run success_rest (initial_state "build-1" demo_doc (repeat MOther send_capacity) [])
       dropped_ack_schedule)
  = Some [MLogChunk ("[build-1] Starting build process..." +:+ String "010"%char "")].
Proof. split; vm_compute; reflexivity. Qed.

Section QueueOrder.
Variable run_rest : BuildSpec -> list instr.
Hypothesis run_rest_no_ack : forall spec, forallb no_ack (run_rest spec) = true.

Lemma no_ack_spawn body : no_ack (ISpawn body) = forallb no_ack body.
Proof. induction body as [|x body IH]; cbn; [done|]. by rewrite <- IH. Qed.

Lemma sendMsg_cases q m : sendMsg q m = q \/ sendMsg q m = (q ++ [m])%list.
Proof. unfold sendMsg. destruct (Nat.ltb _ _); auto. Qed.

Lemma queued_first_snoc l m :
  (In MBuildQueued l -> queued_first l) -> m <> MBuildQueued ->
  In MBuildQueued (l ++ [m])%list -> queued_first (l ++ [m])%list.
Proof.
  intros Hq Hm Hin. apply in_app_or in Hin as [Hin|[Hin|[]]]; [|congruence].
  specialize (Hq Hin).
  intros j m' Hj Hb. apply lookup_app_Some in Hj as [Hj|[Hlen Hj]].
  - destruct (Hq j m' Hj Hb) as (j' & Hlt & Hj').
    exists j'. split; [done|]. by apply lookup_app_l_Some.
  - apply list_elem_of_In, list_elem_of_lookup in Hin as [j' Hj'l].
    exists j'. split.
    + apply lookup_lt_Some in Hj'l. lia.
    + by apply lookup_app_l_Some.
Qed.

Lemma queued_first_no_events l :
  Forall (eq MOther) l -> queued_first l.
Proof.
  intros Hl j m Hj Hb. rewrite Forall_lookup in Hl.
  specialize (Hl j m Hj). subst m. discriminate.
Qed.

Lemma post_enqueue d q m :
  (In MBuildQueued (d ++ q)%list -> queued_first (d ++ q)%list) -> m <> MBuildQueued ->
  In MBuildQueued (d ++ sendMsg q m)%list -> queued_first (d ++ sendMsg q m)%list.
Proof.
  intros H Hm. destruct (sendMsg_cases q m) as [->| ->]; [done|].
  rewrite app_assoc. by apply queued_first_snoc.
Qed.

Lemma only_other_no_ack t : only_other t -> forallb no_ack (code t) = true.
Proof.
  unfold only_other. intros H. apply forallb_forall. intros x Hx.
  rewrite Forall_forall in H. apply list_elem_of_In in Hx. by rewrite <- (H x Hx).
Qed.

Lemma exec_post st i t st' :
  post st -> threads st !! i = Some t -> exec run_rest st i t = Some st' -> post st'.
Proof.
  intros [Hths Hq] Hi Hexec.
  destruct t as [[|ins rest] cl]; [discriminate|].
  pose proof (proj1 (Forall_lookup _ _) Hths i _ Hi) as Ht. cbn in Ht.
  apply andb_true_iff in Ht as [Hins Hrest].
  assert (Hcont : forall cl', Forall (fun t => forallb no_ack (code t) = true)
                                (<[i := mkThread rest cl']> (threads st))).
  { intros cl'. by apply Forall_insert. }
  unfold exec in Hexec. cbn in Hexec.
  destruct ins as [| |body|buildID data| |status|status|content|]; cbn in Hins.
  - discriminate.
  - injection Hexec as <-. split; [apply Hcont|done].
  - injection Hexec as <-. split; [|done]. cbn.
    apply Forall_app; split; [apply Hcont|]. constructor; [|constructor].
    cbn. by rewrite <- no_ack_spawn.
  - destruct (LoadBuildSpecFromBytes data ".yaml") as [spec|e];
      injection Hexec as <-; split; cbn; try done; apply Forall_app; split.
    + apply Hcont.
    + constructor; [|constructor]. cbn. apply run_rest_no_ack.
    + apply Forall_insert; [done|]. cbn. done.
    + constructor; [|constructor]. done.
  - injection Hexec as <-. split; [apply Hcont|done].
  - destruct cl; injection Hexec as <-; (split; [apply Hcont|]); cbn; [|done].
    by apply post_enqueue.
  - injection Hexec as <-. split; [apply Hcont|done].
  - injection Hexec as <-. split; [apply Hcont|]. cbn.
    destruct cl; [|done]. by apply post_enqueue.
  - injection Hexec as <-. split; [apply Hcont|]. cbn. by apply post_enqueue.
Qed.

Lemma exec_pre buildID data st i t st' :
  pre buildID data st -> threads st !! i = Some t -> exec run_rest st i t = Some st' ->
  pre buildID data st' \/ post st'.
Proof.
  intros [Hl (cl & rest0 & Hths & Hrest)] Hi Hexec.
  rewrite Hths in Hi. destruct i as [|k].
  - (* the handler sends the reply *)
    injection Hi as <-. unfold exec in Hexec. cbn in Hexec.
    injection Hexec as <-. right. split; cbn.
    + rewrite Hths. constructor; [done|].
      eapply Forall_impl; [exact Hrest|]. apply only_other_no_ack.
    + intros _. destruct (sendMsg_cases (queue st) MBuildQueued) as [->| ->].
      * by apply queued_first_no_events.
      * intros j m Hj Hb. rewrite app_assoc in Hj.
        apply lookup_app_Some in Hj as [Hj|[_ Hj]].
        -- rewrite Forall_lookup in Hl. specialize (Hl j m Hj). subst m. discriminate.
        -- apply list_elem_of_lookup_2 in Hj. apply list_elem_of_singleton in Hj.
           subst m. discriminate.
  - (* another goroutine sends other traffic *)
    cbn in Hi. pose proof (proj1 (Forall_lookup _ _) Hrest k _ Hi) as Ht.
    destruct t as [[|ins rest] cl']; [discriminate|].
    unfold only_other in Ht. cbn in Ht. apply Forall_cons in Ht as [<- Hrest'].
    unfold exec in Hexec. cbn in Hexec. injection Hexec as <-.
    left. split; cbn.
    + destruct (sendMsg_cases (queue st) MOther) as [->| ->]; [done|].
      rewrite app_assoc. apply Forall_app; split; [done|by constructor].
    + exists cl, (<[k := mkThread rest cl']> rest0). rewrite Hths. split; [done|].
      by apply Forall_insert.
Qed.

Lemma run_invariant buildID data sched st st' :
  pre buildID data st \/ post st -> run run_rest st sched = Some st' ->
  pre buildID data st' \/ post st'.
Proof.
  revert st. induction sched as [|c sched IH]; intros st Hinv Hrun.
  - by injection Hrun as <-.
  - cbn in Hrun. destruct (step run_rest st c) as [st1|] eqn:Hstep; [|discriminate].
    apply (IH st1); [|done].
    destruct c as [i|]; cbn in Hstep.
    + destruct (threads st !! i) as [t|] eqn:Hi; [|discriminate].
      destruct Hinv as [Hpre|Hpost].
      * by eapply exec_pre.
      * right. by eapply exec_post.
    + destruct (queue st) as [|m q'] eqn:Hq; [discriminate|].
      injection Hstep as <-.
      assert (HL : (delivered st ++ [m] ++ q')%list = (delivered st ++ queue st)%list)
        by (rewrite Hq; done).
      destruct Hinv as [[Hl Hex]|[Hths Hqf]]; [left|right]; unfold pre, post; cbn;
        rewrite <- app_assoc, HL.
      * by split.
      * by split.
Qed.
End QueueOrder.

(** C5 (amended): for an accepted build request, on every schedule of the
    goroutines and of [writePump], if the [build_queued] reply was enqueued
    (it was not dropped by [sendMsg] on a full queue), every [log_chunk] and
    [build_status] of the build is delivered after it. The connection's
    other senders only send other traffic, and the rest of the build never
    sends a [build_queued]. *)
Theorem build_queued_precedes_build_events run_rest buildID data q0 others sched st :
  (forall spec, forallb no_ack (run_rest spec) = true) ->
  Forall only_other others ->
  Forall (eq MOther) q0 ->
  run run_rest (initial_state buildID data q0 others) sched = Some st ->
  In MBuildQueued (delivered st ++ queue st)%list ->
  queued_first (delivered st).
Proof.
  intros Hrr Hothers Hq0 Hrun Hin.
  destruct (run_invariant run_rest Hrr buildID data sched
              (initial_state buildID data q0 others) st) as [[Hl _]|[_ Hqf]];
    [|exact Hrun| |].
  - left. split; [done|]. by exists false, others.
  - apply list_elem_of_In in Hin. rewrite Forall_forall in Hl.
    specialize (Hl _ Hin). discriminate.
  - specialize (Hqf Hin). intros j m Hj Hb.
    destruct (Hqf j m (lookup_app_l_Some _ _ _ _ Hj) Hb) as (j' & Hlt & Hj').
    exists j'. split; [done|].
    apply lookup_lt_Some in Hj. rewrite lookup_app_l in Hj' by lia. done.
Qed.

Definition full_build_schedule : list choice :=
  ([Run 0; Run 0; Run 0; Run 1] ++ repeat (Run 2) 8 ++ repeat Write 4)%list.

Lemma build_queued_precedes_build_events_witness :
  (forall spec, forallb no_ack (success_rest spec) = true) /\
  match run success_rest (initial_state "build-1" demo_doc [] []) full_build_schedule with
  | Some st => In MBuildQueued (delivered st ++ queue st)%list /\ queued_first (delivered st)
  | None => False
  end.
Proof.
  split; [reflexivity|].
  destruct (run success_rest (initial_state "build-1" demo_doc [] []) full_build_schedule)
    as [st|] eqn:Hr.
  - assert (Hin : In MBuildQueued (delivered st ++ queue st)%list).
    { vm_compute in Hr. injection Hr as <-. cbn. left. reflexivity. }
    split; [exact Hin|].
    apply (build_queued_precedes_build_events success_rest "build-1" demo_doc [] []
             full_build_schedule st); [reflexivity|constructor|constructor|exact Hr|exact Hin].
  - vm_compute in Hr. discriminate.
Defined.

(** * Further properties of the code *)

Lemma keeps_entries_refl m : keeps_entries m m.
Proof. split; auto. Qed.

Lemma keeps_entries_trans m1 m2 m3 :
  keeps_entries m1 m2 -> keeps_entries m2 m3 -> keeps_entries m1 m3.
Proof. intros [A B] [C D]. split; auto. Qed.

Lemma no_new_links_refl m : no_new_links m m.
Proof. intros k t H. exact H. Qed.

Lemma no_new_links_trans m1 m2 m3 :
  no_new_links m1 m2 -> no_new_links m2 m3 -> no_new_links m1 m3.
Proof. intros A B k t H. auto. Qed.

Lemma insert_keeps_entries m k v :
  m !! k <> Some NDir -> keeps_entries m (<[k := v]> m).
Proof.
  intros Hk. split.
  - intros j Hj. destruct (decide (k = j)) as [<-|Hne];
      [rewrite lookup_insert_eq; eauto|by rewrite lookup_insert_ne].
  - intros j Hj. destruct (decide (k = j)) as [<-|Hne]; [congruence|by rewrite lookup_insert_ne].
Qed.

Lemma insert_no_new_links m k v :
  (forall t, v <> NSymlink t) -> no_new_links m (<[k := v]> m).
Proof.
  intros Hv j t Hj. destruct (decide (k = j)) as [<-|Hne].
  - rewrite lookup_insert_eq in Hj. injection Hj as ->. exfalso. exact (Hv t eq_refl).
  - by rewrite lookup_insert_ne in Hj.
Qed.

Lemma os_mkdir_grows m cs m' :
  os_mkdir m cs = Ok m' -> keeps_entries m m' /\ no_new_links m m'.
Proof.
  unfold os_mkdir. destruct (resolve _ _ _ _ _) as [[|c q]|]; try discriminate.
  destruct (m !! path_of (c :: q)) eqn:E; [discriminate|].
  intros [= <-]. split; [apply insert_keeps_entries; congruence|].
  apply insert_no_new_links. discriminate.
Qed.

Lemma mkdir_all_rev_grows rcs m m' :
  mkdir_all_rev m rcs = Ok m' -> keeps_entries m m' /\ no_new_links m m'.
Proof.
  revert m'. induction rcs as [|c parent IH]; intros m' H; cbn [mkdir_all_rev] in H.
  - destruct (stat m _) as [[| |]|]; try discriminate; injection H as <-;
      split; auto using keeps_entries_refl, no_new_links_refl.
  - destruct (stat m _) as [[| |]|];
      [injection H as <-; split; auto using keeps_entries_refl, no_new_links_refl
      |discriminate|discriminate|].
    destruct (mkdir_all_rev m parent) as [m1|e] eqn:E1; [|discriminate].
    destruct (IH m1 eq_refl) as [K1 L1].
    destruct (os_mkdir m1 _) as [m2|e] eqn:E2.
    + injection H as <-. destruct (os_mkdir_grows _ _ _ E2) as [K2 L2].
      split; eauto using keeps_entries_trans, no_new_links_trans.
    + destruct (m1 !! _) as [[| |]|]; try discriminate. injection H as <-. auto.
Qed.

Lemma MkdirAll_grows m p m' :
  MkdirAll m p = Ok m' -> keeps_entries m m' /\ no_new_links m m'.
Proof. apply mkdir_all_rev_grows. Qed.

Lemma write_file_grows m p data m' :
  write_file m p data = Ok m' -> keeps_entries m m' /\ no_new_links m m'.
Proof.
  unfold write_file. destruct (resolve_path _ _ _) as [[|c q]|]; try discriminate.
  destruct (m !! path_of (c :: q)) as [[| |]|] eqn:E; try discriminate;
    intros [= <-]; (split; [apply insert_keeps_entries; congruence|
                            apply insert_no_new_links; discriminate]).
Qed.

Lemma os_symlink_keeps m o n m' :
  os_symlink m o n = Ok m' -> keeps_entries m m'.
Proof.
  unfold os_symlink. destruct (resolve_path _ _ _) as [[|c q]|]; try discriminate.
  destruct (m !! path_of (c :: q)) eqn:E; [discriminate|].
  intros [= <-]. apply insert_keeps_entries. congruence.
Qed.

Lemma extract_tar_entry_grows destDir m h m' :
  extract_tar_entry destDir m h = Ok m' ->
  keeps_entries m m' /\ (hTypeflag h <> TypeSymlink -> no_new_links m m').
Proof.
  unfold extract_tar_entry. destruct (negb _); [discriminate|].
  destruct (hTypeflag h) eqn:Ht.
  - destruct (MkdirAll m _) as [m1|e] eqn:E1; [|discriminate].
    destruct (write_file m1 _ _) as [m2|e] eqn:E2; [|discriminate].
    intros [= <-]. destruct (MkdirAll_grows _ _ _ E1) as [K1 L1].
    destruct (write_file_grows _ _ _ _ E2) as [K2 L2].
    split; [eauto using keeps_entries_trans|intros _; eauto using no_new_links_trans].
  - destruct (MkdirAll m _) as [m1|e] eqn:E1; [|discriminate].
    intros [= <-]. destruct (MkdirAll_grows _ _ _ E1) as [K1 L1]. auto.
  - destruct (os_symlink _ _ _) as [m1|e] eqn:E1; [|discriminate].
    intros [= <-]. split; [exact (os_symlink_keeps _ _ _ _ E1)|congruence].
  - intros [= <-]. split; auto using keeps_entries_refl, no_new_links_refl.
  - intros [= <-]. split; auto using keeps_entries_refl, no_new_links_refl.
Qed.

(** X1: when [extractTar] succeeds, every entry's joined destination passed its containment check against [destDir]. *)
Theorem extractTar_targets_inside entries destDir m m' :
  extractTar entries destDir m = Ok m' ->
  Forall (fun h => inside_dest destDir (Join destDir (hName h)) = true) entries.
Proof.
  revert m. induction entries as [|h rest IH]; intros m H; [constructor|].
  cbn [extractTar] in H.
  destruct (extract_tar_entry destDir m h) as [m1|e] eqn:E; [|discriminate].
  constructor; [|exact (IH _ H)].
  unfold extract_tar_entry in E. destruct (inside_dest _ _); [reflexivity|discriminate].
Qed.

(** X2: when [extractZip] succeeds, every file's joined destination passed its containment check against [destDir]. *)
Theorem extractZip_targets_inside files destDir m m' :
  extractZip files destDir m = Ok m' ->
  Forall (fun f => inside_dest destDir (Join destDir (zName f)) = true) files.
Proof.
  revert m. induction files as [|f rest IH]; intros m H; [constructor|].
  cbn [extractZip] in H. destruct (inside_dest _ _) eqn:Hin; [|discriminate]. cbn in H.
  constructor; [exact Hin|].
  destruct (zIsDir f).
  - destruct (MkdirAll _ _); [exact (IH _ H)|discriminate].
  - destruct (MkdirAll _ _); [|discriminate].
    destruct (write_file _ _ _); [exact (IH _ H)|discriminate].
Qed.

(** X3: extracting a concatenation of entries is extracting the first part, then, on success, the second part from the resulting file system; an error in the first part stops before the second. *)
Theorem extract_concat es1 es2 fs1 fs2 destDir m :
  extractTar (es1 ++ es2) destDir m = bind_result (extractTar es1 destDir m) (extractTar es2 destDir) /\
  extractZip (fs1 ++ fs2) destDir m = bind_result (extractZip fs1 destDir m) (extractZip fs2 destDir).
Proof.
  split.
  - revert m. induction es1 as [|h rest IH]; intros m; [reflexivity|].
    cbn. destruct (extract_tar_entry destDir m h); [apply IH|reflexivity].
  - revert m. induction fs1 as [|f rest IH]; intros m; [reflexivity|].
    cbn. destruct (inside_dest _ _); [|reflexivity]. cbn.
    destruct (zIsDir f).
    + destruct (MkdirAll _ _); [apply IH|reflexivity].
    + destruct (MkdirAll _ _); [|reflexivity].
      destruct (write_file _ _ _); [apply IH|reflexivity].
Qed.

(** X4: a successful [extractTar] or [extractZip] removes no path of the file system and leaves every existing directory a directory. *)
Theorem extract_keeps_entries :
  (forall entries destDir m m', extractTar entries destDir m = Ok m' -> keeps_entries m m') /\
  (forall files destDir m m', extractZip files destDir m = Ok m' -> keeps_entries m m').
Proof.
  split.
  - intros entries destDir. induction entries as [|h rest IH]; intros m m' H.
    + injection H as <-. apply keeps_entries_refl.
    + cbn [extractTar] in H.
      destruct (extract_tar_entry destDir m h) as [m1|e] eqn:E; [|discriminate].
      eapply keeps_entries_trans; [exact (proj1 (extract_tar_entry_grows _ _ _ _ E))|eauto].
  - intros files destDir. induction files as [|f rest IH]; intros m m' H.
    + injection H as <-. apply keeps_entries_refl.
    + cbn [extractZip] in H. destruct (inside_dest _ _); [|discriminate]. cbn in H.
      destruct (zIsDir f).
      * destruct (MkdirAll m _) as [m1|e] eqn:E1; [|discriminate].
        eapply keeps_entries_trans; [exact (proj1 (MkdirAll_grows _ _ _ E1))|eauto].
      * destruct (MkdirAll m _) as [m1|e] eqn:E1; [|discriminate].
        destruct (write_file m1 _ _) as [m2|e] eqn:E2; [|discriminate].
        eapply keeps_entries_trans; [exact (proj1 (MkdirAll_grows _ _ _ E1))|].
        eapply keeps_entries_trans; [exact (proj1 (write_file_grows _ _ _ _ E2))|eauto].
Qed.

(** X5: a successful [extractZip], or an [extractTar] whose entries include no symlink, creates and changes no symbolic link. *)
Theorem extract_no_new_links :
  (forall entries destDir m m', Forall (fun h => hTypeflag h <> TypeSymlink) entries ->
     extractTar entries destDir m = Ok m' -> no_new_links m m') /\
  (forall files destDir m m', extractZip files destDir m = Ok m' -> no_new_links m m').
Proof.
  split.
  - intros entries destDir. induction entries as [|h rest IH]; intros m m' Hs H.
    + injection H as <-. apply no_new_links_refl.
    + apply Forall_cons in Hs as [Hh Hs]. cbn [extractTar] in H.
      destruct (extract_tar_entry destDir m h) as [m1|e] eqn:E; [|discriminate].
      eapply no_new_links_trans; [exact (proj2 (extract_tar_entry_grows _ _ _ _ E) Hh)|eauto].
  - intros files destDir. induction files as [|f rest IH]; intros m m' H.
    + injection H as <-. apply no_new_links_refl.
    + cbn [extractZip] in H. destruct (inside_dest _ _); [|discriminate]. cbn in H.
      destruct (zIsDir f).
      * destruct (MkdirAll m _) as [m1|e] eqn:E1; [|discriminate].
        eapply no_new_links_trans; [exact (proj2 (MkdirAll_grows _ _ _ E1))|eauto].
      * destruct (MkdirAll m _) as [m1|e] eqn:E1; [|discriminate].
        destruct (write_file m1 _ _) as [m2|e] eqn:E2; [|discriminate].
        eapply no_new_links_trans; [exact (proj2 (MkdirAll_grows _ _ _ E1))|].
        eapply no_new_links_trans; [exact (proj2 (write_file_grows _ _ _ _ E2))|eauto].
Qed.

Lemma prefix_cons x xs y ys :
  String.prefix (String x xs) (String y ys) = (Ascii.eqb x y && String.prefix xs ys)%bool.
Proof.
  cbn. destruct (ascii_dec x y) as [<-|H]; [by rewrite Ascii.eqb_refl|].
  apply Ascii.eqb_neq in H. by rewrite H.
Qed.

Lemma prefix_nil s : String.prefix "" s = true.
Proof. by destruct s. Qed.

Lemma read_header_magic data :
  HasPrefix (read_header data) gzip_magic = HasPrefix data gzip_magic /\
  HasPrefix (read_header data) zip_magic = HasPrefix data zip_magic.
Proof.
  unfold HasPrefix, read_header, gzip_magic, zip_magic.
  destruct data as [|c1 [|c2 [|c3 [|c4 r]]]]; cbv [String.substring String.append];
    repeat rewrite prefix_cons; rewrite ?prefix_nil; cbv [String.prefix]; split;
    repeat match goal with |- context [Ascii.eqb ?a ?b] => is_var b; destruct (Ascii.eqb a b) end;
    reflexivity.
Qed.

(** X6: on a path holding a regular file, [extractArchive] succeeds with exactly the results of [extractBufferToDir] on the file's contents: the four-byte header sees the same gzip and zip magic as the whole data. *)
Theorem extractArchive_as_buffer tar_read gunzip zip_read m sourcePath destDir data :
  stat m sourcePath = Some (NFile data) ->
  forall m', extractArchive tar_read gunzip zip_read m sourcePath destDir = Ok m' <->
             extractBufferToDir tar_read gunzip zip_read data destDir m = Ok m'.
Proof.
  intros H m'. unfold extractArchive, extractBufferToDir. rewrite H.
  destruct (read_header_magic data) as [Hg Hz]. cbv zeta. rewrite Hg, Hz.
  destruct (HasPrefix data gzip_magic); [destruct (gunzip data)|];
    split; intros Hx; (discriminate || exact Hx).
Qed.

(** A tar archive with one regular file, and a zip archive with a directory
    and a file in it. *)
Definition demo_tar : list Header := [mkHeader "src/main.go" TypeReg "" "package main"].
Definition demo_zip : list ZipFile := [mkZipFile "src/" true ""; mkZipFile "src/main.go" false "package main"].

(** The file system of a successful extraction. *)
Definition ok_fs {E} (r : result fsys E) : fsys := match r with Ok m => m | Err _ => ∅ end.

Lemma extractTar_targets_inside_witness :
  extractTar demo_tar "/work/b" host_fs = Ok (ok_fs (extractTar demo_tar "/work/b" host_fs)) /\
  Forall (fun h => inside_dest "/work/b" (Join "/work/b" (hName h)) = true) demo_tar.
Proof.
  assert (E : extractTar demo_tar "/work/b" host_fs
              = Ok (ok_fs (extractTar demo_tar "/work/b" host_fs))) by (vm_compute; reflexivity).
  split; [exact E|exact (extractTar_targets_inside _ _ _ _ E)].
Defined.

Lemma extractZip_targets_inside_witness :
  extractZip demo_zip "/work/b" host_fs = Ok (ok_fs (extractZip demo_zip "/work/b" host_fs)) /\
  Forall (fun f => inside_dest "/work/b" (Join "/work/b" (zName f)) = true) demo_zip.
Proof.
  assert (E : extractZip demo_zip "/work/b" host_fs
              = Ok (ok_fs (extractZip demo_zip "/work/b" host_fs))) by (vm_compute; reflexivity).
  split; [exact E|exact (extractZip_targets_inside _ _ _ _ E)].
Defined.

Lemma extract_keeps_entries_witness :
  keeps_entries host_fs (ok_fs (extractTar demo_tar "/work/b" host_fs)) /\
  keeps_entries host_fs (ok_fs (extractZip demo_zip "/work/b" host_fs)).
Proof.
  split.
  - apply (proj1 extract_keeps_entries demo_tar "/work/b"). vm_compute. reflexivity.
  - apply (proj2 extract_keeps_entries demo_zip "/work/b"). vm_compute. reflexivity.
Defined.

Lemma extract_no_new_links_witness :
  no_new_links host_fs (ok_fs (extractTar demo_tar "/work/b" host_fs)) /\
  no_new_links host_fs (ok_fs (extractZip demo_zip "/work/b" host_fs)).
Proof.
  split.
  - apply (proj1 extract_no_new_links demo_tar "/work/b").
    + repeat constructor. discriminate.
    + vm_compute. reflexivity.
  - apply (proj2 extract_no_new_links demo_zip "/work/b"). vm_compute. reflexivity.
Defined.

(** The host file system with a zip archive at [/work/b/src.zip]. *)
Definition demo_archive_fs : fsys := <["/work/b/src.zip" := NFile zip_magic]> host_fs.

Lemma extractArchive_as_buffer_witness :
  stat demo_archive_fs "/work/b/src.zip" = Some (NFile zip_magic) /\
  forall m', extractArchive (fun _ => ([], false)) (fun _ => None) (fun _ => Some demo_zip)
               demo_archive_fs "/work/b/src.zip" "/work/b" = Ok m' <->
             extractBufferToDir (fun _ => ([], false)) (fun _ => None) (fun _ => Some demo_zip)
               zip_magic "/work/b" demo_archive_fs = Ok m'.
Proof.
  split; [vm_compute; reflexivity|].
  apply extractArchive_as_buffer. vm_compute. reflexivity.
Defined.




(** X8: for the format .json, .yaml or .yml, [LoadBuildSpecFromBytes] never returns the invalid-format error, and returns a parsing error when the chosen decoder rejects the data. *)
Theorem LoadBuildSpecFromBytes_explicit_format data format :
  String.eqb format ".json" || String.eqb format ".yaml" || String.eqb format ".yml" = true ->
  LoadBuildSpecFromBytes data format <> Err ErrInvalidFormat /\
  ((if String.eqb format ".json" then json_ok data else yaml_ok data) = false ->
   LoadBuildSpecFromBytes data format = Err ErrParsing).
Proof.
  intros H. unfold LoadBuildSpecFromBytes, yaml_Unmarshal, json_Unmarshal.
  destruct (String.eqb format ".json"); cbn in H |- *.
  - destruct (json_ok data); cbn; [|split; [discriminate|reflexivity]].
    split; [|discriminate]. unfold validate_spec.
    repeat (destruct (_ || _) || destruct (_ && _)); discriminate.
  - rewrite H. destruct (yaml_ok data); cbn; [|split; [discriminate|reflexivity]].
    split; [|discriminate]. unfold validate_spec.
    repeat (destruct (_ || _) || destruct (_ && _)); discriminate.
Qed.

Lemma LoadBuildSpecFromBytes_explicit_format_witness :
  (String.eqb ".json" ".json" || String.eqb ".json" ".yaml" || String.eqb ".json" ".yml" = true) /\
  LoadBuildSpecFromBytes (mkDocument true false (doc demo_doc)) ".json" <> Err ErrInvalidFormat /\
  ((if String.eqb ".json" ".json" then json_ok (mkDocument true false (doc demo_doc))
    else yaml_ok (mkDocument true false (doc demo_doc))) = false ->
   LoadBuildSpecFromBytes (mkDocument true false (doc demo_doc)) ".json" = Err ErrParsing).
Proof.
  split; [reflexivity|]. apply LoadBuildSpecFromBytes_explicit_format. reflexivity.
Defined.

Lemma build_secrets_loop_ok_iff f ss acc :
  (exists m, build_secrets_loop f ss acc = Ok m) <->
  Forall (fun s => env_injected s = true -> exists v, f (secSource s) = Ok v) ss.
Proof.
  revert acc. induction ss as [|s ss IH]; intros acc; cbn.
  - split; [constructor|eauto].
  - rewrite Forall_cons. fold (env_injected s).
    destruct (env_injected s).
    + destruct (f (secSource s)) as [v|e].
      * rewrite IH. split; [intros H; split; eauto|tauto].
      * split; [intros [m Hm]; discriminate|]. intros [Hs _]. destruct (Hs eq_refl) as [v Hv]. discriminate.
    + rewrite IH. split; [intros H; split; [discriminate|exact H]|tauto].
Qed.

Lemma build_secrets_loop_result f ss acc m :
  build_secrets_loop f ss acc = Ok m ->
  (forall k, is_Some (m !! k) <->
     is_Some (acc !! k) \/ exists s, In s ss /\ env_injected s = true /\ secName s = k) /\
  (forall k v, m !! k = Some v ->
     acc !! k = Some v \/
     exists s, In s ss /\ env_injected s = true /\ secName s = k /\ f (secSource s) = Ok v).
Proof.
  revert acc. induction ss as [|s ss IH]; intros acc H; cbn in H.
  - injection H as <-. split.
    + intros k. split; [auto|]. intros [Hk|(s & [] & _)]; exact Hk.
    + auto.
  - fold (env_injected s) in H.
    destruct (env_injected s) eqn:Es.
    + destruct (f (secSource s)) as [v|e] eqn:Ef; [|discriminate].
      destruct (IH _ H) as [Hk Hv]. split.
      * intros k. rewrite Hk. destruct (decide (secName s = k)) as [<-|Hne].
        -- rewrite lookup_insert_eq. split; [intros _; right; exists s; cbn; auto|eauto].
        -- rewrite lookup_insert_ne by done. split.
           ++ intros [Ha|(s' & Hin & He & Hn)]; [auto|right; exists s'; cbn; auto].
           ++ intros [Ha|(s' & [<-|Hin] & He & Hn)]; [auto|congruence|right; exists s'; auto].
      * intros k w Hm. destruct (Hv k w Hm) as [Ha|(s' & Hin & He & Hn & Hf)].
        -- destruct (decide (secName s = k)) as [<-|Hne].
           ++ rewrite lookup_insert_eq in Ha. injection Ha as <-. right. exists s. cbn. auto.
           ++ rewrite lookup_insert_ne in Ha by done. auto.
        -- right. exists s'. cbn. auto.
    + destruct (IH _ H) as [Hk Hv]. split.
      * intros k. rewrite Hk. split.
        -- intros [Ha|(s' & Hin & He & Hn)]; [auto|right; exists s'; cbn; auto].
        -- intros [Ha|(s' & [<-|Hin] & He & Hn)]; [auto|congruence|].
           right; exists s'; auto.
      * intros k w Hm. destruct (Hv k w Hm) as [Ha|(s' & Hin & He & Hn & Hf)]; [auto|].
        right. exists s'. cbn. auto.
Qed.

(** X9: with a fetcher, step 3 of [Build] succeeds exactly when every secret with inject method empty or env is fetched; its secrets are then exactly those secrets' names, each with a value the fetcher gave for such a secret. *)
Theorem build_secrets_fetch f spec :
  ((exists m, build_secrets (Some f) spec = Ok m) <->
   Forall (fun s => env_injected s = true -> exists v, f (secSource s) = Ok v) (Secrets spec)) /\
  (forall m, build_secrets (Some f) spec = Ok m ->
   (forall k, is_Some (m !! k) <->
      exists s, In s (Secrets spec) /\ env_injected s = true /\ secName s = k) /\
   (forall k v, m !! k = Some v ->
      exists s, In s (Secrets spec) /\ env_injected s = true /\ secName s = k /\
                f (secSource s) = Ok v)).
Proof.
  unfold build_secrets. destruct (Secrets spec) as [|s ss] eqn:E; cbn [length Nat.eqb].
  - split; [split; eauto|]. intros m [= <-]. split.
    + intros k. rewrite lookup_empty. split; [intros [? Hx]; discriminate|intros (s & [] & _)].
    + intros k v Hk. rewrite lookup_empty in Hk. discriminate.
  - split; [apply build_secrets_loop_ok_iff|].
    intros m Hm. destruct (build_secrets_loop_result _ _ _ _ Hm) as [Hk Hv]. split.
    + intros k. rewrite Hk, lookup_empty. split; [intros [[? Hx]|H]; [discriminate|exact H]|auto].
    + intros k v Hkv. destruct (Hv k v Hkv) as [Ha|H]; [rewrite lookup_empty in Ha; discriminate|exact H].
Qed.

Lemma build_secrets_loop_filter f ss acc :
  build_secrets_loop f ss acc = build_secrets_loop f (List.filter env_injected ss) acc.
Proof.
  revert acc. induction ss as [|s ss IH]; intros acc; cbn; [reflexivity|].
  fold (env_injected s). destruct (env_injected s) eqn:Es; cbn.
  - fold (env_injected s). rewrite Es.
    destruct (f (secSource s)); [apply IH|reflexivity].
  - apply IH.
Qed.

(** X10: step 3 of [Build] gives the same result as on the spec whose secrets are restricted to the inject methods empty and env: the other secrets are never fetched. *)
Theorem build_secrets_skips_other_methods f spec :
  build_secrets (Some f) spec =
  build_secrets (Some f)
    (mkBuildSpec (Name spec) (Version spec) (Codebases spec) (Resources spec) (BuildSteps spec)
       (BuildCfg spec) (Env spec) (EnvFiles spec) (List.filter env_injected (Secrets spec))
       (RunCfg spec)).
Proof.
  unfold build_secrets. cbn [Secrets].
  destruct (Secrets spec) as [|s ss] eqn:E; [reflexivity|]. cbn [length Nat.eqb].
  rewrite build_secrets_loop_filter.
  destruct (List.filter env_injected (s :: ss)) eqn:F; reflexivity.
Qed.

Lemma run_secrets_loop_result fetcher ss acc m :
  run_secrets_loop fetcher ss acc = Ok m ->
  forall k, is_Some (m !! k) <-> is_Some (acc !! k) \/ exists s, In s ss /\ secName s = k.
Proof.
  revert acc. induction ss as [|s ss IH]; intros acc H; cbn in H.
  - injection H as <-. intros k. split; [auto|]. intros [Hk|(s & [] & _)]; exact Hk.
  - destruct (GetSecret fetcher (secSource s)) as [v|e]; [|discriminate].
    intros k. rewrite (IH _ H k). destruct (decide (secName s = k)) as [<-|Hne].
    + rewrite lookup_insert_eq. split; [intros _; right; exists s; cbn; auto|eauto].
    + rewrite lookup_insert_ne by done. split.
      * intros [Ha|(s' & Hin & Hn)]; [auto|right; exists s'; cbn; auto].
      * intros [Ha|(s' & [<-|Hin] & Hn)]; [auto|congruence|right; exists s'; auto].
Qed.

(** X11: when step 3 of [runBuildLogic] succeeds, its secrets are exactly the names of all the spec's secrets, whatever their inject method. *)
Theorem run_build_secrets_all_methods f spec m :
  run_build_secrets (Some f) spec = Ok m ->
  forall k, is_Some (m !! k) <-> exists s, In s (Secrets spec) /\ secName s = k.
Proof.
  unfold run_build_secrets. destruct (Secrets spec) as [|s ss] eqn:E; cbn [length Nat.eqb].
  - intros [= <-] k. rewrite lookup_empty. split; [intros [? Hx]; discriminate|intros (s & [] & _)].
  - intros Hm k. rewrite (run_secrets_loop_result _ _ _ _ Hm k), lookup_empty.
    split; [intros [[? Hx]|H]; [discriminate|exact H]|auto].
Qed.

(** A spec with one [env] secret and one [file] secret. *)
Definition demo_file_secret_spec : BuildSpec :=
  mkBuildSpec "demo" "1" [] [] [] zero_build_config ∅ []
    [mkSecretSpec "DB_PASS" "vault/db" "env"; mkSecretSpec "TLS_KEY" "vault/tls" "file"]
    zero_run_config.

Lemma run_build_secrets_all_methods_witness :
  run_build_secrets (Some DummySecretFetcher) demo_file_secret_spec
    = Ok (<["TLS_KEY" := "dummy-secret-for-vault/tls"]> (<["DB_PASS" := "dummy-secret-for-vault/db"]> ∅)) /\
  is_Some ((<["TLS_KEY" := "dummy-secret-for-vault/tls"]> (<["DB_PASS" := "dummy-secret-for-vault/db"]> ∅ : gmap string string)) !! "TLS_KEY").
Proof.
  assert (E : run_build_secrets (Some DummySecretFetcher) demo_file_secret_spec
    = Ok (<["TLS_KEY" := "dummy-secret-for-vault/tls"]> (<["DB_PASS" := "dummy-secret-for-vault/db"]> ∅)))
    by reflexivity.
  split; [exact E|].
  apply (run_build_secrets_all_methods _ _ _ E). exists (mkSecretSpec "TLS_KEY" "vault/tls" "file").
  cbn. auto.
Defined.

Lemma build_secrets_fetch_witness :
  (exists m, build_secrets (Some DummySecretFetcher) demo_file_secret_spec = Ok m) /\
  build_secrets (Some DummySecretFetcher) demo_file_secret_spec
    = Ok (<["DB_PASS" := "dummy-secret-for-vault/db"]> ∅) /\
  (forall k, is_Some ((<["DB_PASS" := "dummy-secret-for-vault/db"]> ∅ : gmap string string) !! k) <->
      exists s, In s (Secrets demo_file_secret_spec) /\ env_injected s = true /\ secName s = k).
Proof.
  assert (E : build_secrets (Some DummySecretFetcher) demo_file_secret_spec
    = Ok (<["DB_PASS" := "dummy-secret-for-vault/db"]> ∅)) by reflexivity.
  split; [|split; [exact E|]].
  - apply (proj1 (build_secrets_fetch DummySecretFetcher demo_file_secret_spec)).
    repeat constructor; intros _; eexists; reflexivity.
  - exact (proj1 (proj2 (build_secrets_fetch DummySecretFetcher demo_file_secret_spec) _ E)).
Defined.


(** X12: with no commit, [fetchGitRepoWithGoGit] performs at most one clone (of the branch, shallow, when one is given) and no checkout, and fails exactly when the destination cannot be prepared or the clone fails. *)
Theorem fetchGitRepo_no_commit env config destDir :
  cbCommit config = "" ->
  fst (fetchGitRepoWithGoGit env config destDir) =
    (if prepared env then [OpClone (cbSource config) (cbBranch config)
                             (if String.eqb (cbBranch config) "" then 0 else 1)] else []) /\
  is_err (snd (fetchGitRepoWithGoGit env config destDir)) =
    negb (prepared env && match clone env with None => true | Some _ => false end).
Proof.
  intros Hc.
  assert (Hcl : forall e, prepared e = true ->
            fetchGitRepoWithGoGit e config destDir = clone_and_checkout e config destDir).
  { intros e Hp. unfold prepared, fetchGitRepoWithGoGit in *.
    destruct (mkdir_parent e); [discriminate|].
    destruct (stat_dest e) as [[|]|]; [|reflexivity|discriminate].
    destruct (remove_dest e); [discriminate|reflexivity]. }
  destruct (prepared env) eqn:Hp.
  - rewrite (Hcl env Hp). unfold clone_and_checkout. rewrite Hc. cbn.
    destruct (clone env) as [[| |msg]|]; cbn;
      repeat match goal with |- context [contains ?a ?b] => destruct (contains a b) end;
      split; reflexivity.
  - unfold prepared, fetchGitRepoWithGoGit in *.
    destruct (mkdir_parent env); [split; reflexivity|].
    destruct (stat_dest env) as [[|]|]; [|discriminate|split; reflexivity].
    destruct (remove_dest env); [split; reflexivity|discriminate].
Qed.

Lemma fetchGitRepo_no_commit_witness :
  cbCommit (mkCodebase "app" "git" "https://example.com/app.git" "main" "" "app" "" false "") = "" /\
  fst (fetchGitRepoWithGoGit (mkGitEnv None (Ok false) None None None None None None)
         (mkCodebase "app" "git" "https://example.com/app.git" "main" "" "app" "" false "") "/work/b/app")
  = [OpClone "https://example.com/app.git" "main" 1].
Proof.
  split; [reflexivity|].
  exact (proj1 (fetchGitRepo_no_commit (mkGitEnv None (Ok false) None None None None None None)
                  (mkCodebase "app" "git" "https://example.com/app.git" "main" "" "app" "" false "")
                  "/work/b/app" eq_refl)).
Defined.


Section ComposeResults.
Variable buildSingleImage : string -> string -> BuildSpec -> string * string * option string.
Variable getImageSize : string -> Z.

(** The engine call [buildComposeProject] makes for service [svc]. *)
Definition service_build (composeFileDir : string) (spec : BuildSpec) (svc : string)
    (b : ComposeBuild) : string * string * option string :=
  let contextPath := compose_context composeFileDir b in
  buildSingleImage contextPath
    (Join contextPath (if String.eqb (cbdDockerfile b) "" then "Dockerfile" else cbdDockerfile b))
    (service_spec spec svc b).

(** The message [buildComposeProject] adds for a service, if any. *)
Definition service_error (composeFileDir : string) (spec : BuildSpec) (svc : string)
    (service : ComposeService) : option string :=
  match csBuild service with
  | None => None
  | Some b =>
      match service_build composeFileDir spec svc b with
      | (_, _, Some e) => Some ("erreur lors du build du service '" +:+ svc +:+ "': " +:+ e)
      | (_, _, None) => None
      end
  end.

Lemma compose_step_eq dir spec svc service r errs :
  compose_service_step buildSingleImage getImageSize dir spec svc service (r, errs) =
  match csBuild service with
  | None => (r, errs)
  | Some b =>
      match service_build dir spec svc b with
      | (_, logs, Some e) =>
          (set_service_output r svc (mkServiceOutput "" 0%Z logs),
           (errs ++ ["erreur lors du build du service '" +:+ svc +:+ "': " +:+ e])%list)
      | (imageID, logs, None) =>
          (set_service_output (set_service_image r svc imageID (getImageSize imageID)) svc
             (mkServiceOutput imageID (getImageSize imageID) logs), errs)
      end
  end.
Proof.
  unfold compose_service_step, service_build. destruct (csBuild service); [|reflexivity].
  cbv zeta. destruct (buildSingleImage _ _ _) as [[? ?] [?|]]; reflexivity.
Qed.

Lemma compose_errors buildDir services spec r0 :
  snd (buildComposeProject buildSingleImage getImageSize buildDir services spec r0) ≡ₚ
  omap (fun kv => service_error (Dir (Join buildDir (ComposeFile (BuildCfg spec)))) spec kv.1 kv.2)
    (map_to_list services).
Proof.
  unfold buildComposeProject.
  apply (map_fold_weak_ind
    (fun st m => snd st ≡ₚ omap (fun kv => service_error (Dir (Join buildDir (ComposeFile (BuildCfg spec)))) spec kv.1 kv.2) (map_to_list m))).
  - rewrite map_to_list_empty. reflexivity.
  - intros i x m [r errs] Hi IH. rewrite compose_step_eq, (map_to_list_insert _ _ _ Hi).
    set (dir := Dir (Join buildDir (ComposeFile (BuildCfg spec)))) in *.
    cbn [omap list_omap fst snd] in IH |- *.
    destruct (csBuild x) as [b|] eqn:Hb.
    + destruct (service_build dir spec i b) as [[id logs] [e|]] eqn:Eb.
      * assert (Hse : service_error dir spec i x
                      = Some ("erreur lors du build du service '" +:+ i +:+ "': " +:+ e))
          by (unfold service_error; rewrite Hb, Eb; reflexivity).
        cbn [fst snd]. rewrite Hse, IH. symmetry. apply Permutation_cons_append.
      * assert (Hse : service_error dir spec i x = None)
          by (unfold service_error; rewrite Hb, Eb; reflexivity).
        cbn [fst snd]. rewrite Hse. exact IH.
    + assert (Hse : service_error dir spec i x = None)
        by (unfold service_error; rewrite Hb; reflexivity).
      rewrite Hse. exact IH.
Qed.

Lemma compose_outputs buildDir services spec r0 k :
  is_Some (ServiceOutputs (fst (buildComposeProject buildSingleImage getImageSize buildDir services spec r0)) !! k)
  <-> is_Some (ServiceOutputs r0 !! k) \/ exists s b, services !! k = Some s /\ csBuild s = Some b.
Proof.
  unfold buildComposeProject. revert k.
  apply (map_fold_weak_ind
    (fun st m => forall k, is_Some (ServiceOutputs (fst st) !! k)
       <-> is_Some (ServiceOutputs r0 !! k) \/ exists s b, m !! k = Some s /\ csBuild s = Some b)).
  - intros k. cbn. split; [auto|]. intros [H|(s & b & Hs & _)]; [exact H|discriminate].
  - intros i x m [r errs] Hi IH k. rewrite compose_step_eq.
    destruct (csBuild x) as [b|] eqn:Hb.
    + assert (Hk : is_Some (ServiceOutputs r0 !! k) \/ (exists s b, <[i:=x]> m !! k = Some s /\ csBuild s = Some b)
                   <-> i = k \/ is_Some (ServiceOutputs r !! k)).
      { rewrite (IH k). destruct (decide (i = k)) as [<-|Hne].
        - rewrite lookup_insert_eq. split; [auto|]. intros _. right. eauto.
        - rewrite lookup_insert_ne by done. intuition congruence. }
      rewrite Hk. destruct (service_build _ _ i b) as [[id logs] [e|]]; cbn;
        (destruct (decide (i = k)) as [<-|Hne];
         [rewrite lookup_insert_eq; split; eauto|rewrite lookup_insert_ne by done; intuition congruence]).
    + cbn. rewrite (IH k). destruct (decide (i = k)) as [<-|Hne].
      * rewrite lookup_insert_eq. split.
        -- intros [H|(s & b & Hs & Hsb)]; [auto|]. congruence.
        -- intros [H|(s & b & Hs & Hsb)]; [auto|]. injection Hs as <-. congruence.
      * rewrite lookup_insert_ne by done. reflexivity.
Qed.

Lemma compose_image_ids buildDir services spec r0 :
  ImageIDs r0 = ∅ ->
  forall k id, ImageIDs (fst (buildComposeProject buildSingleImage getImageSize buildDir services spec r0)) !! k = Some id
  <-> exists s b logs, services !! k = Some s /\ csBuild s = Some b /\
        service_build (Dir (Join buildDir (ComposeFile (BuildCfg spec)))) spec k b = (id, logs, None).
Proof.
  intros H0. unfold buildComposeProject.
  apply (map_fold_weak_ind
    (fun st m => forall k id, ImageIDs (fst st) !! k = Some id <->
       exists s b logs, m !! k = Some s /\ csBuild s = Some b /\
         service_build (Dir (Join buildDir (ComposeFile (BuildCfg spec)))) spec k b = (id, logs, None))).
  - intros k id. cbn. rewrite H0, !lookup_empty. split; [discriminate|].
    intros (s & b & logs & Hs & _). discriminate.
  - intros i x m [r errs] Hi IH k id. rewrite compose_step_eq.
    destruct (decide (i = k)) as [<-|Hne].
    + destruct (csBuild x) as [b|] eqn:Hb.
      * assert (Hr : ImageIDs r !! i = None).
        { destruct (ImageIDs r !! i) as [id'|] eqn:E; [|reflexivity].
          apply IH in E as (s & b' & logs & Hs & _). congruence. }
        destruct (service_build _ _ i b) as [[id' logs] [e|]] eqn:Eb; cbn.
        -- rewrite Hr. split; [discriminate|].
           intros (s & b' & logs' & Hs & Hsb & Hbuild). rewrite lookup_insert_eq in Hs.
           injection Hs as <-. rewrite Hb in Hsb. injection Hsb as <-. congruence.
        -- rewrite lookup_insert_eq. split.
           ++ intros [= <-]. exists x, b, logs. rewrite lookup_insert_eq. auto.
           ++ intros (s & b' & logs' & Hs & Hsb & Hbuild). rewrite lookup_insert_eq in Hs.
              injection Hs as <-. rewrite Hb in Hsb. injection Hsb as <-. congruence.
      * cbn. rewrite IH. split.
        -- intros (s & b & logs & Hs & _). congruence.
        -- intros (s & b & logs & Hs & Hsb & _). rewrite lookup_insert_eq in Hs. congruence.
    + assert (Hm : (exists s b logs, <[i:=x]> m !! k = Some s /\ csBuild s = Some b /\
                     service_build (Dir (Join buildDir (ComposeFile (BuildCfg spec)))) spec k b = (id, logs, None))
                   <-> (exists s b logs, m !! k = Some s /\ csBuild s = Some b /\
                     service_build (Dir (Join buildDir (ComposeFile (BuildCfg spec)))) spec k b = (id, logs, None)))
        by (rewrite lookup_insert_ne by done; reflexivity).
      rewrite Hm, <- IH.
      destruct (csBuild x) as [b|]; [|reflexivity].
      destruct (service_build _ _ i b) as [[id' logs] [e|]]; cbn; [reflexivity|].
      rewrite lookup_insert_ne by done. reflexivity.
Qed.
End ComposeResults.

Lemma generateRunYAML_compose_lookup spec r runtimeEnv tags p y :
  generateRunYAML spec r runtimeEnv tags (Some p) = Ok y ->
  ryVersion y = "1.0" /\
  forall svc, match cpServices p !! svc with
    | None => ryServices y !! svc = None
    | Some service => exists rs, ryServices y !! svc = Some rs /\
        rsImage rs = getImageRefForRun svc (ArtifactStorage (RunCfg spec)) r tags /\
        rsCommand rs = sdCommand service /\
        forall k, rsEnvironment rs !! k =
          match sdEnvironment service !! k with
          | Some v => Some (default "" v)
          | None => runtimeEnv !! k
          end
    end.
Proof.
  intros [= <-]. split; [reflexivity|]. intros svc. cbn [ryServices].
  rewrite map_lookup_imap. destruct (cpServices p !! svc) as [service|]; cbn; [|reflexivity].
  eexists. split; [reflexivity|]. cbn. split; [reflexivity|]. split; [reflexivity|].
  intros k. rewrite lookup_union, lookup_fmap.
  destruct (sdEnvironment service !! k), (runtimeEnv !! k); reflexivity.
Qed.


Lemma first_tag_compose spec r svc :
  ComposeFile (BuildCfg spec) <> "" ->
  first_tag (final_image_tags spec r) svc =
    if bool_decide (is_Some (ServiceOutputs r !! svc))
    then Some (Name spec +:+ "_" +:+ svc +:+ ":latest") else None.
Proof.
  intros Hc. unfold first_tag, final_image_tags.
  rewrite (proj2 (String.eqb_neq _ _) Hc). cbn [negb]. rewrite map_lookup_imap.
  destruct (ServiceOutputs r !! svc); cbn; [|reflexivity].
  assert (Hne : String.eqb (Name spec +:+ "_" +:+ svc +:+ ":latest") "" = false).
  { destruct (Name spec); reflexivity. }
  rewrite Hne. reflexivity.
Qed.

(** X17: after a compose build without errors and docker storage, the run manifest refers a service with a build section to [<name>_<service>:latest] and a service without one to the not-found placeholder. *)
Theorem compose_run_manifest_docker_refs buildSingleImage getImageSize buildDir p spec r0 r
    runtimeEnv y svc service :
  ImageIDs r0 = ∅ -> ServiceOutputs r0 = ∅ ->
  buildComposeProject buildSingleImage getImageSize buildDir (to_compose_service <$> cpServices p)
    spec r0 = (r, []) ->
  ComposeFile (BuildCfg spec) <> "" -> ArtifactStorage (RunCfg spec) = "docker" ->
  generateRunYAML spec r runtimeEnv (final_image_tags spec r) (Some p) = Ok y ->
  cpServices p !! svc = Some service ->
  exists rs, ryServices y !! svc = Some rs /\
    rsImage rs = match sdBuild service with
                 | Some _ => Name spec +:+ "_" +:+ svc +:+ ":latest"
                 | None => "docker:" +:+ svc +:+ "_image_or_tag_not_found"
                 end.
Proof.
  intros Hid Hso Hb Hc Hd Hy Hs.
  destruct (generateRunYAML_compose_lookup _ _ _ _ _ _ Hy) as [_ Hl].
  specialize (Hl svc). rewrite Hs in Hl. destruct Hl as (rs & Hrs & Himg & _).
  exists rs. split; [exact Hrs|]. rewrite Himg, Hd.
  unfold getImageRefForRun. cbn [String.eqb Ascii.eqb Bool.eqb andb]. rewrite first_tag_compose by exact Hc.
  pose proof (compose_outputs buildSingleImage getImageSize buildDir (to_compose_service <$> cpServices p) spec r0 svc) as Ho.
  pose proof (compose_image_ids buildSingleImage getImageSize buildDir (to_compose_service <$> cpServices p) spec r0 Hid svc) as Hi.
  rewrite Hb in Ho, Hi. cbn [fst] in Ho, Hi. rewrite Hso, lookup_empty, lookup_fmap, Hs in Ho.
  setoid_rewrite lookup_fmap in Hi. rewrite Hs in Hi. cbn in Ho, Hi.
  destruct (sdBuild service) as [b|] eqn:Hsb.
  - rewrite bool_decide_eq_true_2; [reflexivity|]. apply Ho. right. eauto.
  - rewrite bool_decide_eq_false_2.
    + unfold service_image_id. destruct (ImageIDs r !! svc) as [id|] eqn:E; [|reflexivity].
      destruct (proj1 (Hi id) eq_refl) as (s & b & logs & Hs' & Hsb' & _).
      injection Hs' as <-. cbn in Hsb'. congruence.
    + intros Hx. apply Ho in Hx as [[? Hx]|(s & b & Hs' & Hsb')]; [discriminate|].
      injection Hs' as <-. cbn in Hsb'. congruence.
Qed.

(** X13: the errors of [buildComposeProject] are, in some order, one message per service with a build section whose engine build failed, and nothing else. *)
Theorem buildComposeProject_errors buildSingleImage getImageSize buildDir services spec r0 :
  snd (buildComposeProject buildSingleImage getImageSize buildDir services spec r0) ≡ₚ
  omap (fun kv => service_error buildSingleImage
                    (Dir (Join buildDir (ComposeFile (BuildCfg spec)))) spec kv.1 kv.2)
    (map_to_list services).
Proof. apply compose_errors. Qed.

(** X14: after [buildComposeProject], the services with outputs are the ones with outputs before plus every service with a build section (failed or not); from empty image IDs, the image IDs are exactly the successful builds' IDs. *)
Theorem buildComposeProject_results buildSingleImage getImageSize buildDir services spec r0 :
  ImageIDs r0 = ∅ ->
  let r := fst (buildComposeProject buildSingleImage getImageSize buildDir services spec r0) in
  (forall k, is_Some (ServiceOutputs r !! k) <->
     is_Some (ServiceOutputs r0 !! k) \/ exists s b, services !! k = Some s /\ csBuild s = Some b) /\
  (forall k id, ImageIDs r !! k = Some id <->
     exists s b logs, services !! k = Some s /\ csBuild s = Some b /\
       service_build buildSingleImage (Dir (Join buildDir (ComposeFile (BuildCfg spec)))) spec k b
       = (id, logs, None)).
Proof.
  intros H0 r. split.
  - apply compose_outputs.
  - apply compose_image_ids. exact H0.
Qed.

Lemma buildComposeProject_results_witness :
  ImageIDs initial_result = ∅ /\
  ImageIDs (fst (buildComposeProject demo_engine demo_size "/work/b" demo_services
                   demo_compose_spec initial_result)) !! "web" = Some "sha256:demo-1.0-service-web".
Proof.
  split; [reflexivity|].
  apply (proj2 (buildComposeProject_results demo_engine demo_size "/work/b" demo_services
                  demo_compose_spec initial_result eq_refl) "web" "sha256:demo-1.0-service-web").
  exists (mkComposeService "" (Some (mkComposeBuild "." "" ∅ ""))),
         (mkComposeBuild "." "" ∅ ""), "Step 1/1".
  split; [reflexivity|]. split; [reflexivity|]. vm_compute. reflexivity.
Defined.

(** A compose file with a service [web] built from [.] and a service [db]
    run from the [postgres:16] image. *)
Definition demo_project : ComposeProject :=
  mkComposeProject "3.8"
    {[ "web" := mkComposeServiceDef "" (Some (mkComposeBuild "." "" ∅ "")) ["./server"] []
                  {[ "PORT" := Some "8080"; "DEBUG" := None ]} ["8080:8080"] [] ["db"] "always";
       "db" := mkComposeServiceDef "postgres:16" None [] [] ∅ [] [] [] "" ]}
    "demo".

(** The result of building [demo_project]'s services. *)
Definition demo_compose_result : BuildResult :=
  fst (buildComposeProject demo_engine demo_size "/work/b"
         (to_compose_service <$> cpServices demo_project) demo_compose_spec initial_result).

(** A runtime environment; [web]'s own [PORT] takes precedence over it. *)
Definition demo_runtime_env : gmap string string := {[ "PORT" := "9090"; "TZ" := "UTC" ]}.



Lemma compose_run_manifest_docker_refs_witness :
  exists y, generateRunYAML demo_compose_spec demo_compose_result demo_runtime_env
              (final_image_tags demo_compose_spec demo_compose_result) (Some demo_project) = Ok y /\
  exists rs, ryServices y !! "db" = Some rs /\
    rsImage rs = "docker:" +:+ "db" +:+ "_image_or_tag_not_found".
Proof.
  eexists. split; [reflexivity|].
  apply (compose_run_manifest_docker_refs demo_engine demo_size "/work/b" demo_project
           demo_compose_spec initial_result demo_compose_result demo_runtime_env _ "db"
           (mkComposeServiceDef "postgres:16" None [] [] ∅ [] [] [] "")).
  - reflexivity.
  - reflexivity.
  - vm_compute. reflexivity.
  - discriminate.
  - reflexivity.
  - reflexivity.
  - reflexivity.
Defined.


Section Silence.
Variable run_rest : BuildSpec -> list instr.
Hypothesis run_rest_no_register : forall spec, forallb no_register (run_rest spec) = true.

(** No goroutine holds a client for the build and none registers it. *)
Definition silent_thread (t : thread) : Prop :=
  client t = false /\ forallb no_register (code t) = true.

Lemma no_register_spawn body : no_register (ISpawn body) = forallb no_register body.
Proof. induction body as [|x body IH]; cbn; [done|]. by rewrite <- IH. Qed.

Lemma build_events_sendMsg d q m :
  is_build_event m = false ->
  List.filter is_build_event (d ++ sendMsg q m)%list = List.filter is_build_event (d ++ q)%list.
Proof.
  intros Hm. destruct (sendMsg_cases q m) as [->| ->]; [reflexivity|].
  rewrite app_assoc, List.filter_app. cbn. rewrite Hm, app_nil_r. reflexivity.
Qed.

Lemma exec_silent st i t st' :
  registered st = false -> Forall silent_thread (threads st) ->
  threads st !! i = Some t ->
  exec run_rest st i t = Some st' ->
  registered st' = false /\ Forall silent_thread (threads st') /\
  List.filter is_build_event (delivered st' ++ queue st')%list
  = List.filter is_build_event (delivered st ++ queue st)%list.
Proof.
  intros Hreg Hths Hi Hex.
  assert (Ht : silent_thread t) by (rewrite Forall_lookup in Hths; eauto).
  destruct Ht as [Hcl Hcode].
  unfold exec in Hex. destruct (code t) as [|ins rest] eqn:Hc; [discriminate|].
  cbn in Hcode. apply andb_prop in Hcode as [Hins Hrest].
  assert (Hcont : forall cl, cl = false ->
            Forall silent_thread (<[i := mkThread rest cl]> (threads st))).
  { intros cl ->. apply Forall_insert; [exact Hths|]. split; [reflexivity|exact Hrest]. }
  destruct ins as [| |body|bid data| |s|s|c|]; cbn in Hins; try discriminate.
  - injection Hex as <-. cbn. split; [exact Hreg|]. rewrite Hcl.
    split; [exact (Hcont false eq_refl)|]. by apply build_events_sendMsg.
  - injection Hex as <-. cbn. split; [exact Hreg|]. rewrite Hcl. split; [|reflexivity].
    apply Forall_app. split; [exact (Hcont false eq_refl)|].
    constructor; [|constructor]. split; [reflexivity|]. cbn. by rewrite <- no_register_spawn.
  - destruct (LoadBuildSpecFromBytes data ".yaml") as [spec|e].
    + injection Hex as <-. cbn. split; [exact Hreg|]. split; [|reflexivity].
      apply Forall_app. split; [rewrite Hcl; exact (Hcont false eq_refl)|].
      constructor; [|constructor]. split; [reflexivity|]. cbn.
      unfold runBuildLogic. cbn. apply run_rest_no_register.
    + injection Hex as <-. cbn. split; [exact Hreg|]. split; [|reflexivity].
      apply Forall_app. split.
      * apply Forall_insert; [exact Hths|]. split; [exact Hcl|]. cbn. exact Hrest.
      * constructor; [|constructor]. split; reflexivity.
  - injection Hex as <-. cbn. split; [exact Hreg|]. split; [|reflexivity].
    rewrite Hreg. exact (Hcont false eq_refl).
  - rewrite Hcl in Hex. injection Hex as <-. cbn. split; [reflexivity|].
    split; [exact (Hcont false eq_refl)|reflexivity].
  - injection Hex as <-. cbn. rewrite Hcl. cbn. split; [exact Hreg|].
    split; [exact (Hcont false eq_refl)|reflexivity].
  - rewrite Hcl in Hex. injection Hex as <-. cbn. split; [exact Hreg|].
    split; [exact (Hcont false eq_refl)|reflexivity].
  - injection Hex as <-. cbn. split; [exact Hreg|]. rewrite Hcl.
    split; [exact (Hcont false eq_refl)|]. by apply build_events_sendMsg.
Qed.

(** X18: while the build is not registered and no goroutine holds its client or registers it, any run of the machine enqueues no log chunk and no build status. *)
Theorem unregistered_build_silent st sched st' :
  registered st = false -> Forall silent_thread (threads st) ->
  run run_rest st sched = Some st' ->
  List.filter is_build_event (delivered st' ++ queue st')%list
  = List.filter is_build_event (delivered st ++ queue st)%list.
Proof.
  revert st. induction sched as [|c sched IH]; intros st Hreg Hths Hrun; cbn in Hrun.
  - by injection Hrun as <-.
  - destruct (step run_rest st c) as [st1|] eqn:Hs; [|discriminate].
    assert (H1 : registered st1 = false /\ Forall silent_thread (threads st1) /\
                 List.filter is_build_event (delivered st1 ++ queue st1)%list
                 = List.filter is_build_event (delivered st ++ queue st)%list).
    { destruct c as [i|]; cbn in Hs.
      - destruct (threads st !! i) as [t|] eqn:Hi; [|discriminate].
        exact (exec_silent st i t st1 Hreg Hths Hi Hs).
      - destruct (queue st) as [|m q'] eqn:Hq; [discriminate|].
        injection Hs as <-. cbn. split; [exact Hreg|]. split; [exact Hths|].
        by rewrite <- app_assoc. }
    destruct H1 as (Hreg1 & Hths1 & Hf1). rewrite <- Hf1. exact (IH st1 Hreg1 Hths1 Hrun).
Qed.
End Silence.

(** X19: [NotifyStatus] run without interleaving sends the status exactly when the build is registered, and leaves the build registered exactly when it was and the status is not final. *)
Lemma NotifyStatus_sequential run_rest st i t s rest :
  threads st !! i = Some t -> code t = (NotifyStatus s ++ rest)%list ->
  exists st', run run_rest st [Run i; Run i; Run i] = Some st' /\
    queue st' = (if registered st then sendMsg (queue st) (MBuildStatus s) else queue st) /\
    delivered st' = delivered st /\
    registered st' = registered st && negb (is_final s) /\
    threads st' = <[i := mkThread rest (registered st)]> (threads st).
Proof.
  intros Hi Hc. destruct st as [q d reg ths]. cbn [threads queue delivered registered] in *.
  assert (Hlt : i < length ths) by (apply lookup_lt_Some in Hi; exact Hi).
  cbn [run step threads]. rewrite Hi. unfold exec at 1. rewrite Hc.
  cbn [app NotifyStatus queue delivered registered threads client code].
  rewrite list_lookup_insert_eq by exact Hlt.
  unfold exec at 1. cbn [queue delivered registered threads client code].
  destruct reg.
  - cbn [threads]. rewrite list_lookup_insert_eq by (rewrite length_insert; exact Hlt).
    unfold exec. cbn [queue delivered registered threads client code andb].
    eexists. split; [reflexivity|]. cbn.
    rewrite !list_insert_insert_eq. repeat split.
  - cbn [threads]. rewrite list_lookup_insert_eq by (rewrite length_insert; exact Hlt).
    unfold exec. cbn [queue delivered registered threads client code andb].
    eexists. split; [reflexivity|]. cbn.
    rewrite !list_insert_insert_eq. repeat split.
Qed.

(** A goroutine that starts a build it never registered. *)
Definition silent_build_state : state :=
  mkState [] [] false [mkThread [IStartBuildAsync "build-1" demo_doc; ISendOther] false].

Definition silent_build_schedule : list choice :=
  [Run 0; Run 1; Run 1; Run 1; Run 1; Run 1; Run 1; Run 1; Run 1; Run 0; Write].

Lemma unregistered_build_silent_witness :
  match run success_rest silent_build_state silent_build_schedule with
  | Some st' =>
      (forall spec, forallb no_register (success_rest spec) = true) /\
      registered silent_build_state = false /\
      Forall silent_thread (threads silent_build_state) /\
      List.filter is_build_event (delivered st' ++ queue st')%list
      = List.filter is_build_event (delivered silent_build_state ++ queue silent_build_state)%list
  | None => False
  end.
Proof.
  destruct (run success_rest silent_build_state silent_build_schedule) as [st'|] eqn:E;
    [|vm_compute in E; discriminate].
  assert (Hr : forall spec, forallb no_register (success_rest spec) = true) by reflexivity.
  assert (Hreg : registered silent_build_state = false) by reflexivity.
  assert (Hths : Forall silent_thread (threads silent_build_state)).
  { repeat constructor. }
  split; [exact Hr|]. split; [exact Hreg|]. split; [exact Hths|].
  exact (unregistered_build_silent success_rest Hr silent_build_state silent_build_schedule st' Hreg Hths E).
Defined.

Lemma NotifyStatus_sequential_witness :
  exists st', run success_rest (mkState [MOther] [] true
                 [mkThread (NotifyStatus "success" ++ [ISendOther])%list false])
                [Run 0; Run 0; Run 0] = Some st' /\
    queue st' = sendMsg [MOther] (MBuildStatus "success") /\
    delivered st' = [] /\
    registered st' = false /\
    threads st' = [mkThread [ISendOther] true].
Proof.
  exact (NotifyStatus_sequential success_rest
           (mkState [MOther] [] true [mkThread (NotifyStatus "success" ++ [ISendOther])%list false])
           0 (mkThread (NotifyStatus "success" ++ [ISendOther])%list false) "success" [ISendOther]
           eq_refl eq_refl).
Defined.
